(** * Satellite image fetcher: a model of [data_fetcher.py]

    The script downloads one satellite image per row of a table and stores it
    under [images/train/<id>.jpg], skipping rows whose image is already on
    disk.  The development below embeds the script as a program in a small
    state-and-exception monad over an explicit world (file store plus an
    event trace) and proves the behavioural properties of the fetch loop. *)

From Stdlib Require Import ZArith Lia.
From stdpp Require Import base strings pretty list gmap.

(** ** Python values that reach an f-string *)

Abbreviation bytes := (list Byte.byte).

(** A cell of the table.  A binary64 number is carried by the text that
    [str] prints for it (its shortest round-trip decimal), which is all the
    script ever does with a coordinate. *)
Inductive pyval :=
| PyInt (z : Z)
| PyStr (s : string)
| PyFloat (repr : string).

(** [format(v, "")], what an f-string placeholder [{v}] expands to. *)
Definition py_str (v : pyval) : string :=
  match v with
  | PyInt z => pretty z
  | PyStr s => s
  | PyFloat r => r
  end.

(** One row of the data frame, restricted to the columns the script reads
    ([row["id"]], [row["lat"]], [row["long"]]). *)
Record Row := mkRow {
  row_id : pyval;
  row_lat : pyval;
  row_long : pyval
}.

(** ** Runtime switches and paths *)

(** The three switches of the script.  The source fixes them to the values
    of [default_config]; the interval is a positive number, as in the source
    (Python's [%] raises on a zero divisor). *)
Record config := mkConfig {
  USE_SAMPLE : bool;
  SAMPLE_SIZE : nat;
  PROGRESS_INTERVAL : positive
}.

Definition default_config : config :=
  {| USE_SAMPLE := false; SAMPLE_SIZE := 500; PROGRESS_INTERVAL := 50 |}.

Definition RUN_MODE (cfg : config) : string :=
  if USE_SAMPLE cfg then "sample" else "full".

Definition DATA_PATH : string := "data/train.xlsx".
Definition IMAGE_DIR : string := "images/train".

(** *** pathlib: pure POSIX paths *)

Definition slash : Ascii.ascii := Ascii.ascii_of_nat 47.

(** [s.split("/")] *)
Fixpoint split_slash (s : string) : list string :=
  match s with
  | EmptyString => [""]
  | String c rest =>
      if decide (c = slash) then "" :: split_slash rest
      else match split_slash rest with
           | part :: parts => String c part :: parts
           | [] => [String c ""]
           end
  end.

(** [s.lstrip("/")] *)
Fixpoint lstrip_slash (s : string) : string :=
  match s with
  | EmptyString => ""
  | String c rest => if decide (c = slash) then lstrip_slash rest else s
  end.

(** A parsed path: its root ([""] when relative) and its components. *)
Record PurePath := mkPath {
  path_root : string;
  path_parts : list string
}.

(** [splitroot]: leading slashes make the root, which is ["//"] for exactly
    two of them and ["/"] otherwise. *)
Definition splitroot (part : string) : string * string :=
  let stripped := lstrip_slash part in
  match String.length part - String.length stripped with
  | 0 => ("", part)
  | 2 => ("//", stripped)
  | _ => ("/", stripped)
  end.

(** Parsing drops empty components and ["."] components. *)
Definition parse_path (s : string) : PurePath :=
  {| path_root := (splitroot s).1;
     path_parts := filter (λ x, x ≠ "" ∧ x ≠ ".") (split_slash (splitroot s).2) |}.

(** [p / name]: an absolute [name] replaces [p], a relative one extends it. *)
Definition truediv (p : PurePath) (name : string) : PurePath :=
  let q := parse_path name in
  if decide (path_root q = "")
  then {| path_root := path_root p; path_parts := path_parts p ++ path_parts q |}
  else q.

(** [str(p)] *)
Definition path_str (p : PurePath) : string :=
  let s := path_root p +:+ String.concat "/" (path_parts p) in
  if decide (s = "") then "." else s.

(** [str(Path(dir) / name)] *)
Definition path_join (dir name : string) : string :=
  path_str (truediv (parse_path dir) name).

(** A text without ["/"]. *)
Fixpoint no_slash (s : string) : bool :=
  match s with
  | EmptyString => true
  | String c rest => if decide (c = slash) then false else no_slash rest
  end.

(** [IMAGE_DIR / f"{pid}.jpg"] *)
Definition out_path_of (pid : pyval) : string :=
  path_join IMAGE_DIR (py_str pid +:+ ".jpg").

(** ** The URL builder *)

Definition DEFAULT_ZOOM : pyval := PyInt 17.
Definition DEFAULT_SIZE : pyval := PyInt 256.

Definition mapbox_url (MAPBOX_TOKEN : string) (lat lon zoom size : pyval) : string :=
  "https://api.mapbox.com/styles/v1/mapbox/satellite-v9/static/"
  +:+ py_str lon +:+ "," +:+ py_str lat +:+ "," +:+ py_str zoom
  +:+ "/" +:+ py_str size +:+ "x" +:+ py_str size
  +:+ "?access_token=" +:+ MAPBOX_TOKEN.

(** [needle in haystack] for Python strings. *)
Definition contains (needle haystack : string) : Prop :=
  ∃ before after, haystack = before +:+ needle +:+ after.

(** ** The world: file store and event trace *)

(** Everything the script does to the outside world, in program order. *)
Inductive event :=
| EvMkdir (dir : string)
| EvReadExcel (path : string)
| EvPrint (line : string)
| EvGet (url : string) (timeout : Z)
| EvOpenWb (path : string)
| EvWrite (path : string) (data : bytes).

(** The effect of one event on the file store: [open(p, "wb")] creates the
    file or truncates it to length zero, [f.write(data)] appends at the end
    of what the file holds; no other event touches a file. *)
Definition apply_event (ev : event) (files : gmap string bytes) : gmap string bytes :=
  match ev with
  | EvOpenWb p => <[p := []]> files
  | EvWrite p data => <[p := default [] (files !! p) ++ data]> files
  | _ => files
  end.

(** The store after a sequence of events.  A process killed part-way leaves
    the store of the events it got through: [replay (take k evs) files]. *)
Definition replay (evs : list event) (files : gmap string bytes) : gmap string bytes :=
  foldl (λ fs ev, apply_event ev fs) files evs.

Record state := mkState {
  fs : gmap string bytes;
  trace : list event;
  downloaded : nat;
  skipped : nat
}.

(** A fresh process over a given store. *)
Definition init_state (files : gmap string bytes) : state :=
  {| fs := files; trace := []; downloaded := 0; skipped := 0 |}.

Definition emit (ev : event) (st : state) : state :=
  {| fs := apply_event ev (fs st); trace := trace st ++ [ev];
     downloaded := downloaded st; skipped := skipped st |}.

Definition bump_downloaded (st : state) : state :=
  {| fs := fs st; trace := trace st;
     downloaded := S (downloaded st); skipped := skipped st |}.

Definition bump_skipped (st : state) : state :=
  {| fs := fs st; trace := trace st;
     downloaded := downloaded st; skipped := S (skipped st) |}.

Definition reset_counters (st : state) : state :=
  {| fs := fs st; trace := trace st; downloaded := 0; skipped := 0 |}.

(** ** Exceptions *)

Inductive exn :=
| RuntimeError (msg : string)
| RequestException (msg : string)
| OSError (msg : string)
| FileNotFoundError (msg : string)
| PyException (class_name msg : string).

(** [str(e)] *)
Definition exn_str (e : exn) : string :=
  match e with
  | RuntimeError m | RequestException m | OSError m | FileNotFoundError m => m
  | PyException _ m => m
  end.

(** ** What the outside world answers *)

Inductive get_result :=
| Response (status_code : Z) (content : bytes)
| GetRaises (e : string).

Inductive write_result :=
| WriteOk
| OpenRaises (e : string)
| WriteRaises (written : nat) (e : string).

(** State of a numpy random generator, up to what sampling needs: the row
    positions it picks when asked for [size] out of [population] without
    replacement. *)
Record rng := mkRng {
  choice : nat → nat → list nat
}.

(** The environment of one run.  The two oracles are indexed by logical time
    (the number of events so far) and by the URL or path concerned.
    [mkdir_error] is the exception making a directory raises, if any;
    [excel] is the table a workbook holds, [None] when reading it raises, and
    [excel_error] is then the exception raised. *)
Record environment := mkEnv {
  environ : gmap string string;
  dotenv : gmap string string;
  mkdir_error : string → option exn;
  excel : string → option (list Row);
  excel_error : string → exn;
  http_get : nat → string → get_result;
  disk : nat → string → write_result;
  global_rng : rng
}.

(** ** The monad of the script *)

Inductive result (A : Type) :=
| Ok (a : A)
| Raise (e : exn).
Arguments Ok {A} a.
Arguments Raise {A} e.

Definition M (A : Type) : Type := state → result A * state.

#[global] Instance M_ret : MRet M := λ A a st, (Ok a, st).

#[global] Instance M_bind : MBind M := λ A B f m st,
  match m st with
  | (Ok a, st') => f a st'
  | (Raise e, st') => (Raise e, st')
  end.

Definition raise {A} (e : exn) : M A := λ st, (Raise e, st).

(** [try: body / except Exception as e: handler(e)] *)
Definition try_except {A} (body : M A) (handler : exn → M A) : M A := λ st,
  match body st with
  | (Ok a, st') => (Ok a, st')
  | (Raise e, st') => handler e st'
  end.

Definition modify (f : state → state) : M unit := λ st, (Ok tt, f st).

Definition gets {A} (f : state → A) : M A := λ st, (Ok (f st), st).

Definition print (line : string) : M unit := modify (emit (EvPrint line)).

(** ** pandas: [DataFrame.sample] *)

(** [df.sample(n=n, random_state=seed)]: a generator seeded afresh when an
    integer seed is given, the process-wide one otherwise; the rows at the
    positions the generator picks, in the order it picks them. *)
Definition DataFrame_sample (global_state : rng) (seeded : Z → rng)
    (df : list Row) (n : nat) (random_state : option Z) : list Row :=
  let rs := match random_state with
            | Some seed => seeded seed
            | None => global_state
            end in
  omap (λ i, df !! i) (choice rs (length df) n).

(** What numpy promises of a draw without replacement of [size ≤ population]
    positions: [size] distinct positions below [population]. *)
Definition choice_contract (rs : rng) : Prop :=
  ∀ population size : nat, size ≤ population →
    length (choice rs population size) = size
    ∧ NoDup (choice rs population size)
    ∧ Forall (λ i, i < population) (choice rs population size).

(** ** The script *)

Section Fetcher.

Variable cfg : config.
Variable env : environment.

(** [numpy.random.RandomState(seed)], the generator a seed stands for. *)
Variable RandomState : Z → rng.

(** [load_dotenv()] adds the variables of the [.env] file that the process
    environment does not define already. *)
Definition load_dotenv : gmap string string := environ env ∪ dotenv env.

(** [os.getenv(name)] after [load_dotenv()] *)
Definition getenv (name : string) : option string := load_dotenv !! name.

(** [not v] for a value that is [None] or a string. *)
Definition py_not (v : option string) : bool :=
  match v with
  | None => true
  | Some s => bool_decide (s = "")
  end.

(** [Path(dir).mkdir(parents=True, exist_ok=True)] *)
Definition mkdir (dir : string) : M unit := λ st,
  match mkdir_error env dir with
  | None => (Ok tt, emit (EvMkdir dir) st)
  | Some e => (Raise e, emit (EvMkdir dir) st)
  end.

(** [pd.read_excel(path)] *)
Definition read_excel (path : string) : M (list Row) := λ st,
  match excel env path with
  | Some rows => (Ok rows, emit (EvReadExcel path) st)
  | None => (Raise (excel_error env path), emit (EvReadExcel path) st)
  end.

(** [out_path.exists()] *)
Definition path_exists (p : string) : M bool :=
  gets (λ st, bool_decide (is_Some (fs st !! p))).

(** [requests.get(url, timeout=timeout)] *)
Definition requests_get (url : string) (timeout : Z) : M (Z * bytes) := λ st,
  match http_get env (length (trace st)) url with
  | Response status body => (Ok (status, body), emit (EvGet url timeout) st)
  | GetRaises e => (Raise (RequestException e), emit (EvGet url timeout) st)
  end.

(** [with open(p, "wb") as f: f.write(data)] *)
Definition write_wb (p : string) (data : bytes) : M unit := λ st,
  match disk env (length (trace st)) p with
  | WriteOk => (Ok tt, emit (EvWrite p data) (emit (EvOpenWb p) st))
  | OpenRaises e => (Raise (OSError e), st)
  | WriteRaises k e =>
      (Raise (OSError e), emit (EvWrite p (take k data)) (emit (EvOpenWb p) st))
  end.

(** The progress line is due when [downloaded % PROGRESS_INTERVAL == 0]. *)
Definition progress_due (d : nat) : bool :=
  Nat.eqb (d mod Pos.to_nat (PROGRESS_INTERVAL cfg)) 0.

Definition progress_text (d total_images : nat) : string :=
  "Downloaded " +:+ pretty d +:+ "/" +:+ pretty total_images +:+ " images".

Definition failed_text (pid : pyval) (status : Z) : string :=
  "⚠️ Failed ID " +:+ py_str pid +:+ " | HTTP " +:+ pretty status.

Definition error_text (pid : pyval) (e : exn) : string :=
  "❌ Error for ID " +:+ py_str pid +:+ ": " +:+ exn_str e.

(** Lines 105 and 106, the last statement of the loop body. *)
Definition progress_check (total_images : nat) : M unit :=
  d ← gets downloaded;
  if progress_due d then print (progress_text d total_images) else mret tt.

(** The body of the [for] loop. *)
Definition process_row (MAPBOX_TOKEN : string) (total_images : nat) (row : Row) : M unit :=
  let pid := row_id row in
  let lat := row_lat row in
  let lon := row_long row in
  let out_path := out_path_of pid in
  present ← path_exists out_path;
  if (present : bool) then
    modify bump_skipped
  else
    let url := mapbox_url MAPBOX_TOKEN lat lon DEFAULT_ZOOM DEFAULT_SIZE in
    try_except
      (response ← requests_get url 10;
       if bool_decide (response.1 = 200%Z) then
         write_wb out_path response.2;;
         modify bump_downloaded
       else
         print (failed_text pid response.1))
      (λ e, print (error_text pid e));;
    progress_check total_images.

(** [for idx, row in df.iterrows(): ...] *)
Fixpoint for_each (body : Row → M unit) (df : list Row) : M unit :=
  match df with
  | [] => mret tt
  | row :: rest => body row;; for_each body rest
  end.

(** The counters and the loop (lines 76 to 106). *)
Definition fetch_loop (MAPBOX_TOKEN : string) (total_images : nat) (df : list Row) : M unit :=
  modify reset_counters;;
  for_each (process_row MAPBOX_TOKEN total_images) df.

(** The data set the loop runs over (lines 55 to 58). *)
Definition load_dataset : M (list Row) :=
  df ← read_excel DATA_PATH;
  if USE_SAMPLE cfg then
    mret (DataFrame_sample (global_rng env) RandomState df
            (Nat.min (SAMPLE_SIZE cfg) (length df)) (Some 42%Z))
  else mret df.

Definition summary (total_images : nat) : M unit :=
  d ← gets downloaded;
  s ← gets skipped;
  print (String (Ascii.ascii_of_nat 10) "========== DOWNLOAD SUMMARY ==========");;
  print ("Total requested : " +:+ pretty total_images);;
  print ("Downloaded      : " +:+ pretty d);;
  print ("Already existed : " +:+ pretty s);;
  print "=====================================".

(** The whole script, top to bottom. *)
Definition script : M unit :=
  let MAPBOX_TOKEN := getenv "MAPBOX_TOKEN" in
  if py_not MAPBOX_TOKEN then
    raise (RuntimeError "MAPBOX_TOKEN not found in .env file")
  else
    mkdir IMAGE_DIR;;
    df ← load_dataset;
    let total_images := length df in
    print "Starting image download...";;
    print ("Total images to download: " +:+ pretty total_images);;
    fetch_loop (default "" MAPBOX_TOKEN) total_images df;;
    summary total_images.

End Fetcher.

(** ** Observations on runs *)

(** The state a computation leaves behind. *)
Definition exec {A} (m : M A) (st : state) : state := (m st).2.

(** The events a run added to the trace of the state it started from. *)
Definition new_events (st st' : state) : list event :=
  drop (length (trace st)) (trace st').

Definition is_get (ev : event) : bool :=
  match ev with EvGet _ _ => true | _ => false end.

Definition is_file_event (ev : event) : bool :=
  match ev with EvOpenWb _ | EvWrite _ _ => true | _ => false end.

(** A line printed by one of the two failure branches of the loop body. *)
Definition is_failure_line (line : string) : bool :=
  String.prefix "⚠️ Failed ID " line || String.prefix "❌ Error for ID " line.

Definition is_failure (ev : event) : bool :=
  match ev with EvPrint line => is_failure_line line | _ => false end.

(** A [Downloaded d/total images] line. *)
Definition is_progress (ev : event) : bool :=
  match ev with EvPrint line => String.prefix "Downloaded " line | _ => false end.

(** The number of records that failed, read off the output. *)
Definition failures (evs : list event) : nat := length (List.filter is_failure evs).

(** The last statement of the loop body, as a state transformer. *)
Definition progress (cfg : config) (total_images : nat) (st : state) : state :=
  if progress_due cfg (downloaded st)
  then emit (EvPrint (progress_text (downloaded st) total_images)) st
  else st.

(** Storage discipline of an event sequence played over [files]: a file is
    opened for writing only where none exists, and data goes only into a file
    that is still empty. *)
Fixpoint writes_fresh (files : gmap string bytes) (evs : list event) : Prop :=
  match evs with
  | [] => True
  | ev :: rest =>
      match ev with
      | EvOpenWb q => files !! q = None
      | EvWrite q _ => files !! q = Some []
      | _ => True
      end ∧ writes_fresh (apply_event ev files) rest
  end.

(** What the last statement of the loop body adds to the trace. *)
Definition progress_events (cfg : config) (total_images : nat) (st : state) : list event :=
  if progress_due cfg (downloaded st)
  then [EvPrint (progress_text (downloaded st) total_images)]
  else [].

(** ** One iteration, branch by branch *)

Section Steps.

Variable cfg : config.
Variable env : environment.
Variable MAPBOX_TOKEN : string.
Variable total_images : nat.

Definition url_of (row : Row) : string :=
  mapbox_url MAPBOX_TOKEN (row_lat row) (row_long row) DEFAULT_ZOOM DEFAULT_SIZE.

Definition out_path (row : Row) : string := out_path_of (row_id row).

(** The state after the request of a row has been issued. *)
Definition requested (row : Row) (st : state) : state :=
  emit (EvGet (url_of row) 10) st.

(** The six ways through the loop body. *)
Inductive row_step (st : state) (row : Row) : state → Prop :=
| step_skipped :
    is_Some (fs st !! out_path row) →
    row_step st row (bump_skipped st)
| step_downloaded body :
    fs st !! out_path row = None →
    http_get env (length (trace st)) (url_of row) = Response 200 body →
    disk env (S (length (trace st))) (out_path row) = WriteOk →
    row_step st row
      (progress cfg total_images
         (bump_downloaded
            (emit (EvWrite (out_path row) body)
               (emit (EvOpenWb (out_path row)) (requested row st)))))
| step_failed_status status body :
    fs st !! out_path row = None →
    http_get env (length (trace st)) (url_of row) = Response status body →
    status ≠ 200%Z →
    row_step st row
      (progress cfg total_images
         (emit (EvPrint (failed_text (row_id row) status)) (requested row st)))
| step_get_raises e :
    fs st !! out_path row = None →
    http_get env (length (trace st)) (url_of row) = GetRaises e →
    row_step st row
      (progress cfg total_images
         (emit (EvPrint (error_text (row_id row) (RequestException e)))
            (requested row st)))
| step_open_raises body e :
    fs st !! out_path row = None →
    http_get env (length (trace st)) (url_of row) = Response 200 body →
    disk env (S (length (trace st))) (out_path row) = OpenRaises e →
    row_step st row
      (progress cfg total_images
         (emit (EvPrint (error_text (row_id row) (OSError e))) (requested row st)))
| step_write_raises body k e :
    fs st !! out_path row = None →
    http_get env (length (trace st)) (url_of row) = Response 200 body →
    disk env (S (length (trace st))) (out_path row) = WriteRaises k e →
    row_step st row
      (progress cfg total_images
         (emit (EvPrint (error_text (row_id row) (OSError e)))
            (emit (EvWrite (out_path row) (take k body))
               (emit (EvOpenWb (out_path row)) (requested row st))))).

(** The loop, as the sequence of its iterations. *)
Inductive rows_steps : state → list Row → state → Prop :=
| steps_nil st : rows_steps st [] st
| steps_cons st row st1 rest st2 :
    row_step st row st1 →
    rows_steps st1 rest st2 →
    rows_steps st (row :: rest) st2.

End Steps.

(** A request that does not end in status 200. *)
Definition failed_request (r : get_result) : Prop :=
  match r with
  | Response status _ => status ≠ 200%Z
  | GetRaises _ => True
  end.

(** The line the loop prints for such a request. *)
Definition failure_line (pid : pyval) (r : get_result) : string :=
  match r with
  | Response status _ => failed_text pid status
  | GetRaises e => error_text pid (RequestException e)
  end.

(** ** Sample worlds *)

Definition house (n : Z) : Row := mkRow (PyInt n) (PyFloat "47.6") (PyFloat "-122.3").

(** A generator that picks the first positions. *)
Definition first_rows : rng := mkRng (λ _ size, seq 0 size).

(** A generator that picks the last positions. *)
Definition last_rows : rng := mkRng (λ population size, seq (population - size) size).

Definition world (vars : gmap string string) (table : option (list Row))
    (answer : nat → string → get_result) (store : nat → string → write_result)
    (g : rng) : environment :=
  {| environ := vars; dotenv := ∅; mkdir_error := λ _, None;
     excel := λ _, table;
     excel_error := λ path,
       FileNotFoundError ("[Errno 2] No such file or directory: '" +:+ path +:+ "'");
     http_get := answer; disk := store; global_rng := g |}.

Definition jpeg : bytes := [Byte.xff; Byte.xd8; Byte.xff; Byte.xe0].

(** Every request is answered 200 with the same image. *)
Definition online : environment :=
  world ∅ None (λ _ _, Response 200 jpeg) (λ _ _, WriteOk) first_rows.

(** Every request is answered 404. *)
Definition not_found : environment :=
  world ∅ None (λ _ _, Response 404 []) (λ _ _, WriteOk) first_rows.

(** Every request times out. *)
Definition offline : environment :=
  world ∅ None (λ _ _, GetRaises "Read timed out.") (λ _ _, WriteOk) first_rows.

(** A run of the loop by a fresh process over the store [files]; the total
    shown in progress lines is the number of rows, as in the script. *)
Definition run_loop (cfg : config) (env : environment) (MAPBOX_TOKEN : string)
    (df : list Row) (files : gmap string bytes) : state :=
  exec (fetch_loop cfg env MAPBOX_TOKEN (length df) df) (init_state files).

(** A first run in which the only request is refused, then a second run over
    the store the first one left, with the service back. *)
Definition refused_run : state := run_loop default_config not_found "tok" [house 1] ∅.
Definition retry_run : state :=
  run_loop default_config online "tok" [house 1] (fs refused_run).

(** Progress every second download; the first two requests succeed (they are
    issued at times 0 and 3), the third (at time 7) is refused. *)
Definition every_second : config :=
  {| USE_SAMPLE := false; SAMPLE_SIZE := 500; PROGRESS_INTERVAL := 2 |}.
Definition two_then_refused : environment :=
  world ∅ None (λ t _, if t <? 7 then Response 200 jpeg else Response 404 [])
    (λ _ _, WriteOk) first_rows.
Definition cadence_run : state :=
  run_loop every_second two_then_refused "tok" [house 1; house 2; house 3] ∅.

(** One successful iteration, the store a kill after [k] of its events
    leaves, and the next run of the loop over that store. *)
Definition single_download : state :=
  exec (process_row default_config online "tok" 1 (house 1)) (init_state ∅).
Definition killed_after (k : nat) : gmap string bytes :=
  replay (take k (trace single_download)) ∅.
Definition run_after_kill : state :=
  run_loop default_config online "tok" [house 1] (killed_after 2).

(** A store that already holds the image of house 1. *)
Definition fetched_once : gmap string bytes := {[ out_path_of (PyInt 1) := jpeg ]}.

(** Sample mode, two rows out of three, under two different process-wide
    generators. *)
Definition sampling : config :=
  {| USE_SAMPLE := true; SAMPLE_SIZE := 2; PROGRESS_INTERVAL := 50 |}.
Definition three_houses : list Row := [house 1; house 2; house 3].
Definition draw_a : environment :=
  world ∅ (Some three_houses) (λ _ _, Response 200 jpeg) (λ _ _, WriteOk) first_rows.
Definition draw_b : environment :=
  world ∅ (Some three_houses) (λ _ _, Response 404 []) (λ _ _, WriteOk) last_rows.

(** A run in which every request succeeds. *)
Definition full_run : state := run_loop default_config online "tok" three_houses ∅.

(** ** The whole script, piece by piece *)

(** The number of events of a kind. *)
Definition count (f : event → bool) (evs : list event) : nat :=
  length (List.filter f evs).

(** The requests of a trace, in order: URL and timeout. *)
Definition requests_of (evs : list event) : list (string * Z) :=
  omap (λ ev, match ev with EvGet url timeout => Some (url, timeout) | _ => None end) evs.

(** The request the loop issues for a row. *)
Definition request_for (MAPBOX_TOKEN : string) (row : Row) : string * Z :=
  (url_of MAPBOX_TOKEN row, 10%Z).

(** The rows the loop runs over, given the table read from the file. *)
Definition dataset (cfg : config) (env : environment) (rs : Z → rng)
    (table : list Row) : list Row :=
  if USE_SAMPLE cfg
  then DataFrame_sample (global_rng env) rs table
         (SAMPLE_SIZE cfg `min` length table) (Some 42%Z)
  else table.

(** What the script does before the loop (lines 50 to 63). *)
Definition preamble_events (total_images : nat) : list event :=
  [EvMkdir IMAGE_DIR; EvReadExcel DATA_PATH;
   EvPrint "Starting image download...";
   EvPrint ("Total images to download: " +:+ pretty total_images)].

(** The summary block (lines 109 to 113). *)
Definition summary_events (total_images d s : nat) : list event :=
  [EvPrint (String (Ascii.ascii_of_nat 10) "========== DOWNLOAD SUMMARY ==========");
   EvPrint ("Total requested : " +:+ pretty total_images);
   EvPrint ("Downloaded      : " +:+ pretty d);
   EvPrint ("Already existed : " +:+ pretty s);
   EvPrint "====================================="].

(** The state in which the loop starts, once the preamble has run. *)
Definition after_preamble (total_images : nat) (st : state) : state :=
  {| fs := fs st; trace := trace st ++ preamble_events total_images;
     downloaded := downloaded st; skipped := skipped st |}.

(** The number of progress lines the check prints at count [d]: one or none. *)
Definition due_lines (cfg : config) (d : nat) : nat :=
  if progress_due cfg d then 1 else 0.

(** A well-formed progress line: it shows a count [d] at which the check
    fires, no larger than [bound], over the total. *)
Definition progress_line_ok (cfg : config) (total_images bound : nat)
    (ev : event) : Prop :=
  ∃ d, ev = EvPrint (progress_text d total_images)
       ∧ progress_due cfg d = true
       ∧ d ≤ bound.

(** ** More sample worlds *)

(** A token in the [.env] file only, and a table of three houses. *)
Definition configured (answer : nat → string → get_result)
    (store : nat → string → write_result) (table : option (list Row)) : environment :=
  {| environ := ∅; dotenv := {[ "MAPBOX_TOKEN" := "pk.test" ]};
     mkdir_error := λ _, None;
     excel := λ _, table;
     excel_error := λ _,
       PyException "ValueError"
         "Excel file format cannot be determined, you must specify an engine manually.";
     http_get := answer; disk := store; global_rng := last_rows |}.

(** Requests succeed, but the directory cannot be written. *)
Definition read_only : environment :=
  world ∅ None (λ _ _, Response 200 jpeg)
    (λ _ _, OpenRaises "[Errno 13] Permission denied") first_rows.

(** Requests succeed, but the disk fills up two bytes into every write. *)
Definition disk_full : environment :=
  world ∅ None (λ _ _, Response 200 jpeg)
    (λ _ _, WriteRaises 2 "[Errno 28] No space left on device") first_rows.

(** The switches of the source, with sample mode turned on. *)
Definition sampling_all : config :=
  {| USE_SAMPLE := true; SAMPLE_SIZE := 500; PROGRESS_INTERVAL := 50 |}.

(** * Properties *)

(** ** Strings *)

Lemma append_cons ch (a b : string) : String ch a +:+ b = String ch (a +:+ b).
Proof. reflexivity. Qed.

Lemma append_assoc (a b c : string) : (a +:+ b) +:+ c = a +:+ b +:+ c.
Proof. induction a as [|ch a IH]; [done|]. rewrite !append_cons. by f_equal. Qed.

Lemma append_empty_r (a : string) : a +:+ "" = a.
Proof. induction a as [|ch a IH]; [done|]. rewrite append_cons. by f_equal. Qed.

Lemma prefix_append (a b : string) : String.prefix a (a +:+ b) = true.
Proof.
  induction a as [|ch a IH].
  - by destruct b.
  - rewrite append_cons. cbn [String.prefix].
    destruct (Ascii.ascii_dec ch ch); [exact IH | done].
Qed.

Lemma contains_middle (a s b : string) : contains s (a +:+ s +:+ b).
Proof. by exists a, b. Qed.

Lemma contains_end (a s : string) : contains s (a +:+ s).
Proof. exists a, "". by rewrite append_empty_r. Qed.

Lemma contains_append_l (s a b : string) : contains s b → contains s (a +:+ b).
Proof.
  intros (x & y & ->). exists (a +:+ x), y. by rewrite append_assoc.
Qed.

Lemma failed_text_is_failure pid status :
  is_failure_line (failed_text pid status) = true.
Proof. unfold is_failure_line, failed_text. by rewrite prefix_append. Qed.

Lemma error_text_is_failure pid e : is_failure_line (error_text pid e) = true.
Proof.
  unfold is_failure_line, error_text. rewrite (prefix_append "❌ Error for ID ").
  apply orb_true_r.
Qed.

Lemma progress_text_not_failure d total :
  is_failure_line (progress_text d total) = false.
Proof. reflexivity. Qed.

Lemma progress_text_is_progress d total :
  String.prefix "Downloaded " (progress_text d total) = true.
Proof. unfold progress_text. apply prefix_append. Qed.

(** ** The loop body refines the step relation *)

Section StepFacts.

Variable cfg : config.
Variable env : environment.
Variable MAPBOX_TOKEN : string.
Variable total_images : nat.

Local Abbreviation body := (process_row cfg env MAPBOX_TOKEN total_images).
Local Abbreviation step := (row_step cfg env MAPBOX_TOKEN total_images).
Local Abbreviation steps := (rows_steps cfg env MAPBOX_TOKEN total_images).

Lemma progress_check_eq (st : state) :
  progress_check cfg total_images st = (Ok tt, progress cfg total_images st).
Proof.
  unfold progress_check, progress, gets, print, modify, mbind, M_bind, mret, M_ret.
  by destruct (progress_due cfg (downloaded st)).
Qed.

Lemma process_row_step (st : state) (row : Row) :
  ∃ st', body row st = (Ok tt, st') ∧ step st row st'.
Proof.
  unfold process_row, path_exists, gets, mbind, M_bind.
  fold (out_path row). fold (url_of MAPBOX_TOKEN row).
  destruct (fs st !! out_path row) as [old|] eqn:Hfs.
  - rewrite bool_decide_eq_true_2 by eauto.
    eexists; split; [reflexivity|]. apply step_skipped. rewrite Hfs; eauto.
  - rewrite bool_decide_eq_false_2 by (intros [? ?]; done).
    unfold try_except, requests_get, mbind, M_bind.
    destruct (http_get env (length (trace st)) (url_of MAPBOX_TOKEN row))
      as [status content|e] eqn:Hget.
    + cbn [fst snd]. destruct (decide (status = 200%Z)) as [->|Hne].
      * rewrite bool_decide_eq_true_2 by done.
        unfold write_wb.
        replace (length (trace (emit (EvGet (url_of MAPBOX_TOKEN row) 10) st)))
          with (S (length (trace st))) by (simpl; rewrite length_app; simpl; lia).
        destruct (disk env (S (length (trace st))) (out_path row)) eqn:Hdisk;
          unfold print, modify; cbv beta iota; rewrite progress_check_eq;
          (eexists; split; [reflexivity|]).
        -- by eapply step_downloaded.
        -- by eapply step_open_raises.
        -- by eapply step_write_raises.
      * rewrite bool_decide_eq_false_2 by done.
        unfold print, modify. cbv beta iota. rewrite progress_check_eq.
        eexists; split; [reflexivity|]. by eapply step_failed_status.
    + unfold print, modify. cbv beta iota. rewrite progress_check_eq.
      eexists; split; [reflexivity|]. by eapply step_get_raises.
Qed.

(** *** Projections of the state transformers *)

Lemma progress_fs (st : state) : fs (progress cfg total_images st) = fs st.
Proof. unfold progress. by destruct (progress_due cfg (downloaded st)). Qed.

Lemma progress_downloaded (st : state) :
  downloaded (progress cfg total_images st) = downloaded st.
Proof. unfold progress. by destruct (progress_due cfg (downloaded st)). Qed.

Lemma progress_skipped (st : state) :
  skipped (progress cfg total_images st) = skipped st.
Proof. unfold progress. by destruct (progress_due cfg (downloaded st)). Qed.

Lemma progress_trace (st : state) :
  trace (progress cfg total_images st) =
  trace st ++ progress_events cfg total_images st.
Proof.
  unfold progress, progress_events.
  destruct (progress_due cfg (downloaded st)); simpl; [done|].
  by rewrite app_nil_r.
Qed.

Lemma failures_app (evs1 evs2 : list event) :
  failures (evs1 ++ evs2) = failures evs1 + failures evs2.
Proof. unfold failures. by rewrite List.filter_app, length_app. Qed.

Lemma failures_progress (st : state) :
  failures (trace (progress cfg total_images st)) = failures (trace st).
Proof.
  rewrite progress_trace, failures_app. unfold progress_events.
  destruct (progress_due cfg (downloaded st)); unfold failures; simpl; lia.
Qed.

Lemma failures_failed_line (evs : list event) pid status :
  failures (evs ++ [EvPrint (failed_text pid status)]) = S (failures evs).
Proof.
  rewrite failures_app. unfold failures at 2. simpl.
  rewrite failed_text_is_failure. simpl. lia.
Qed.

Lemma failures_error_line (evs : list event) pid e :
  failures (evs ++ [EvPrint (error_text pid e)]) = S (failures evs).
Proof.
  rewrite failures_app. unfold failures at 2. simpl.
  rewrite error_text_is_failure. simpl. lia.
Qed.

Lemma failures_other (evs : list event) (ev : event) :
  is_failure ev = false → failures (evs ++ [ev]) = failures evs.
Proof.
  intros H. rewrite failures_app. unfold failures at 2. simpl.
  rewrite H. simpl. lia.
Qed.

(** *** The loop never raises and is the sequence of its iterations *)

Lemma for_each_steps (df : list Row) (st : state) :
  ∃ st', for_each body df st = (Ok tt, st') ∧ steps st df st'.
Proof.
  revert st. induction df as [|row rest IH]; intros st.
  - exists st. split; [done | constructor].
  - destruct (process_row_step st row) as (st1 & Hbody & Hstep).
    destruct (IH st1) as (st2 & Hrest & Hsteps).
    exists st2. split; [|by econstructor].
    simpl. unfold mbind, M_bind. by rewrite Hbody.
Qed.

Lemma exec_steps (df : list Row) (st : state) :
  steps st df (exec (for_each body df) st).
Proof.
  destruct (for_each_steps df st) as (st' & Heq & Hsteps).
  unfold exec. by rewrite Heq.
Qed.

Lemma for_each_app (df1 df2 : list Row) (st : state) :
  for_each body (df1 ++ df2) st =
  for_each body df2 (exec (for_each body df1) st).
Proof.
  revert st. induction df1 as [|row rest IH]; intros st; [done|].
  destruct (process_row_step st row) as (st1 & Hbody & _).
  simpl. unfold exec, mbind, M_bind. rewrite Hbody.
  rewrite IH. reflexivity.
Qed.

(** *** Events and the store *)

Lemma replay_app (evs1 evs2 : list event) (files : gmap string bytes) :
  replay (evs1 ++ evs2) files = replay evs2 (replay evs1 files).
Proof. unfold replay. by rewrite foldl_app. Qed.

Lemma writes_fresh_app (evs1 evs2 : list event) (files : gmap string bytes) :
  writes_fresh files (evs1 ++ evs2) ↔
  writes_fresh files evs1 ∧ writes_fresh (replay evs1 files) evs2.
Proof.
  revert files. induction evs1 as [|ev evs1 IH]; intros files; simpl.
  - tauto.
  - rewrite IH. tauto.
Qed.

Lemma replay_progress_events (st : state) (files : gmap string bytes) :
  replay (progress_events cfg total_images st) files = files.
Proof. unfold progress_events. by destruct (progress_due _ _). Qed.

Lemma writes_fresh_progress_events (st : state) (files : gmap string bytes) :
  writes_fresh files (progress_events cfg total_images st).
Proof. unfold progress_events. by destruct (progress_due _ _). Qed.

Ltac step_inv H :=
  inversion H; subst; clear H;
  rewrite ?progress_fs, ?progress_downloaded, ?progress_skipped.

(** One iteration extends the trace, and the store follows the new events. *)
Lemma step_effects (st st' : state) (row : Row) :
  step st row st' →
  ∃ evs, trace st' = trace st ++ evs
         ∧ fs st' = replay evs (fs st)
         ∧ writes_fresh (fs st) evs.
Proof.
  intros H. step_inv H.
  - exists []. simpl. by rewrite app_nil_r.
  - exists ([EvGet (url_of MAPBOX_TOKEN row) 10; EvOpenWb (out_path row);
             EvWrite (out_path row) body] ++ progress_events cfg total_images
               (bump_downloaded
                  (emit (EvWrite (out_path row) body)
                     (emit (EvOpenWb (out_path row))
                        (requested MAPBOX_TOKEN row st))))).
    rewrite progress_trace, replay_app, replay_progress_events.
    split_and!; [by simpl; rewrite <- !app_assoc | done |].
    apply writes_fresh_app. split; [|apply writes_fresh_progress_events].
    simpl. by rewrite lookup_insert_eq.
  - exists ([EvGet (url_of MAPBOX_TOKEN row) 10;
             EvPrint (failed_text (row_id row) status)] ++ progress_events cfg total_images
               (emit (EvPrint (failed_text (row_id row) status))
                  (requested MAPBOX_TOKEN row st))).
    rewrite progress_trace, replay_app, replay_progress_events.
    split_and!; [by simpl; rewrite <- !app_assoc | done |].
    apply writes_fresh_app. split; [done | apply writes_fresh_progress_events].
  - exists ([EvGet (url_of MAPBOX_TOKEN row) 10;
             EvPrint (error_text (row_id row) (RequestException e))]
            ++ progress_events cfg total_images
               (emit (EvPrint (error_text (row_id row) (RequestException e)))
                  (requested MAPBOX_TOKEN row st))).
    rewrite progress_trace, replay_app, replay_progress_events.
    split_and!; [by simpl; rewrite <- !app_assoc | done |].
    apply writes_fresh_app. split; [done | apply writes_fresh_progress_events].
  - exists ([EvGet (url_of MAPBOX_TOKEN row) 10;
             EvPrint (error_text (row_id row) (OSError e))]
            ++ progress_events cfg total_images
               (emit (EvPrint (error_text (row_id row) (OSError e)))
                  (requested MAPBOX_TOKEN row st))).
    rewrite progress_trace, replay_app, replay_progress_events.
    split_and!; [by simpl; rewrite <- !app_assoc | done |].
    apply writes_fresh_app. split; [done | apply writes_fresh_progress_events].
  - exists ([EvGet (url_of MAPBOX_TOKEN row) 10; EvOpenWb (out_path row);
             EvWrite (out_path row) (take k body);
             EvPrint (error_text (row_id row) (OSError e))]
            ++ progress_events cfg total_images
               (emit (EvPrint (error_text (row_id row) (OSError e)))
                  (emit (EvWrite (out_path row) (take k body))
                     (emit (EvOpenWb (out_path row))
                        (requested MAPBOX_TOKEN row st))))).
    rewrite progress_trace, replay_app, replay_progress_events.
    split_and!; [by simpl; rewrite <- !app_assoc | done |].
    apply writes_fresh_app. split; [|apply writes_fresh_progress_events].
    simpl. by rewrite lookup_insert_eq.
Qed.

Lemma steps_effects (st st' : state) (df : list Row) :
  steps st df st' →
  ∃ evs, trace st' = trace st ++ evs
         ∧ fs st' = replay evs (fs st)
         ∧ writes_fresh (fs st) evs.
Proof.
  induction 1 as [st|st row st1 rest st2 Hstep _ IH].
  - exists []. simpl. by rewrite app_nil_r.
  - destruct (step_effects _ _ _ Hstep) as (evs1 & Ht1 & Hf1 & Hw1).
    destruct IH as (evs2 & Ht2 & Hf2 & Hw2).
    exists (evs1 ++ evs2). rewrite Ht2, Ht1, Hf2, Hf1, replay_app, app_assoc.
    split_and!; [done..|]. apply writes_fresh_app. by rewrite <- Hf1.
Qed.

(** *** Counters, failures and files, one iteration at a time *)

Lemma write_after_open (files : gmap string bytes) (p : string) (data : bytes) :
  apply_event (EvWrite p data) (apply_event (EvOpenWb p) files) = <[p := data]> files.
Proof. simpl. by rewrite lookup_insert_eq, insert_insert_eq. Qed.

(** Exactly one of the three tallies moves, by one; a row that is not a
    failure has its file on disk afterwards. *)
Lemma step_counters (st st' : state) (row : Row) :
  step st row st' →
  (downloaded st' = S (downloaded st) ∧ skipped st' = skipped st
   ∧ failures (trace st') = failures (trace st)
   ∧ is_Some (fs st' !! out_path row))
  ∨ (downloaded st' = downloaded st ∧ skipped st' = S (skipped st)
     ∧ failures (trace st') = failures (trace st)
     ∧ is_Some (fs st' !! out_path row))
  ∨ (downloaded st' = downloaded st ∧ skipped st' = skipped st
     ∧ failures (trace st') = S (failures (trace st))).
Proof.
  intros H. step_inv H; rewrite ?failures_progress.
  - right; left. done.
  - left. split_and!; [done..| |].
    + simpl. by rewrite !failures_other.
    + cbn [fs bump_downloaded emit requested]. rewrite write_after_open.
      rewrite lookup_insert_eq. eauto.
  - right; right. split_and!; [done..|].
    cbn [trace emit requested]. by rewrite failures_failed_line, failures_other.
  - right; right. split_and!; [done..|].
    cbn [trace emit requested]. by rewrite failures_error_line, failures_other.
  - right; right. split_and!; [done..|].
    cbn [trace emit requested]. by rewrite failures_error_line, failures_other.
  - right; right. split_and!; [done..|].
    cbn [trace emit requested]. by rewrite failures_error_line, !failures_other.
Qed.

(** Files on disk before an iteration are there, unchanged, after it. *)
Lemma step_fs_mono (st st' : state) (row : Row) :
  step st row st' → fs st ⊆ fs st'.
Proof.
  intros H. step_inv H; cbn [fs bump_skipped bump_downloaded emit requested];
    rewrite ?write_after_open; cbn [apply_event]; try done;
    by apply insert_subseteq.
Qed.

(** An iteration creates no file other than the one of its row. *)
Lemma step_new_files (st st' : state) (row : Row) (q : string) :
  step st row st' →
  is_Some (fs st' !! q) → is_Some (fs st !! q) ∨ q = out_path row.
Proof.
  intros H. step_inv H; cbn [fs bump_skipped bump_downloaded emit requested];
    rewrite ?write_after_open; cbn [apply_event]; auto;
    (destruct (decide (q = out_path row)) as [->|Hne]; [by right|]);
    rewrite lookup_insert_ne by done; auto.
Qed.

(** *** The same, over the whole loop *)

Lemma steps_counters (st st' : state) (df : list Row) :
  steps st df st' →
  downloaded st' + skipped st' + failures (trace st')
  = downloaded st + skipped st + failures (trace st) + length df
  ∧ downloaded st ≤ downloaded st'
  ∧ skipped st ≤ skipped st'
  ∧ failures (trace st) ≤ failures (trace st').
Proof.
  induction 1 as [st|st row st1 rest st2 Hstep _ IH]; [simpl; lia|].
  apply step_counters in Hstep. simpl. lia.
Qed.

Lemma steps_fs_mono (st st' : state) (df : list Row) :
  steps st df st' → fs st ⊆ fs st'.
Proof.
  induction 1 as [st|st row st1 rest st2 Hstep _ IH]; [done|].
  etrans; [by eapply step_fs_mono | done].
Qed.

Lemma steps_new_files (st st' : state) (df : list Row) (q : string) :
  steps st df st' →
  is_Some (fs st' !! q) →
  is_Some (fs st !! q) ∨ ∃ row, row ∈ df ∧ q = out_path row.
Proof.
  induction 1 as [st|st row st1 rest st2 Hstep _ IH]; [auto|].
  intros Hq. destruct (IH Hq) as [Hq1|(r & Hr & ->)].
  - destruct (step_new_files _ _ _ _ Hstep Hq1) as [?| ->]; [auto|].
    right. exists row. split; [apply list_elem_of_here | done].
  - right. exists r. split; [by apply list_elem_of_further | done].
Qed.

Lemma is_Some_mono (m1 m2 : gmap string bytes) (q : string) :
  m1 ⊆ m2 → is_Some (m1 !! q) → is_Some (m2 !! q).
Proof. intros Hsub [c Hc]. exists c. by eapply lookup_weaken. Qed.

(** A run in which no row failed leaves the file of every row on disk. *)
Lemma steps_complete (st st' : state) (df : list Row) :
  steps st df st' →
  downloaded st' + skipped st' = downloaded st + skipped st + length df →
  ∀ row, row ∈ df → is_Some (fs st' !! out_path row).
Proof.
  induction 1 as [st|st row st1 rest st2 Hstep Hrest IH]; intros Hsum r Hr.
  - by apply elem_of_nil in Hr.
  - pose proof (steps_counters _ _ _ Hrest) as Hc.
    pose proof (steps_fs_mono _ _ _ Hrest) as Hmono.
    apply step_counters in Hstep. simpl in Hsum.
    apply elem_of_cons in Hr as [->|Hr].
    + apply (is_Some_mono (fs st1)); [done|].
      destruct Hstep as [(?&?&?&?)|[(?&?&?&?)|(?&?&?)]]; [done..|lia].
    + apply IH; [lia | done].
Qed.

(** Over rows whose files all exist, the loop only counts. *)
Lemma steps_all_present (st st' : state) (df : list Row) :
  (∀ row, row ∈ df → is_Some (fs st !! out_path row)) →
  steps st df st' →
  fs st' = fs st ∧ trace st' = trace st
  ∧ downloaded st' = downloaded st
  ∧ skipped st' = skipped st + length df.
Proof.
  intros Hall Hsteps. induction Hsteps as [st|st row st1 rest st2 Hstep _ IH].
  - simpl. split_and!; [done..|lia].
  - assert (is_Some (fs st !! out_path row)) as [c Hc]
      by (apply Hall, list_elem_of_here).
    assert (st1 = bump_skipped st) as ->
      by (inversion Hstep; [done | congruence..]).
    destruct IH as (Hf & Ht & Hd & Hs).
    { intros r Hr. apply Hall. by apply list_elem_of_further. }
    rewrite Hf, Ht, Hd, Hs. simpl. split_and!; [done..|lia].
Qed.

(** *** Reading a run off its final state *)

Lemma exec_body (st : state) (row : Row) :
  body row st = (Ok tt, exec (body row) st) ∧ step st row (exec (body row) st).
Proof.
  destruct (process_row_step st row) as (st' & Heq & Hstep).
  unfold exec. by rewrite Heq.
Qed.

Lemma new_events_app (st st' : state) (evs : list event) :
  trace st' = trace st ++ evs → new_events st st' = evs.
Proof. intros H. unfold new_events. rewrite H. apply drop_app_length. Qed.

Lemma new_events_same (st st' : state) :
  trace st' = trace st → new_events st st' = [].
Proof. intros H. apply new_events_app. by rewrite app_nil_r. Qed.

Lemma progress_events_counter (st1 st2 : state) :
  downloaded st1 = downloaded st2 →
  progress_events cfg total_images st1 = progress_events cfg total_images st2.
Proof. unfold progress_events. by intros ->. Qed.

Lemma for_each_cons (st : state) (row : Row) (rest : list Row) :
  for_each body (row :: rest) st = for_each body rest (exec (body row) st).
Proof.
  destruct (exec_body st row) as [Heq _].
  simpl. unfold mbind, M_bind. by rewrite Heq.
Qed.

(** *** When the progress line is printed *)

Lemma progress_due_zero : progress_due cfg 0 = true.
Proof. unfold progress_due. by rewrite Nat.Div0.mod_0_l. Qed.

Lemma progress_new_events (st mid : state) (evs : list event) :
  trace mid = trace st ++ evs →
  new_events st (progress cfg total_images mid)
  = evs ++ progress_events cfg total_images (progress cfg total_images mid).
Proof.
  intros Hmid. apply new_events_app. rewrite progress_trace, Hmid, <- app_assoc.
  do 2 f_equal. apply progress_events_counter. by rewrite progress_downloaded.
Qed.

(** Every row that is not skipped, downloaded or failed alike, ends with the
    check on the counter as it then stands: the line is printed whenever that
    count is a multiple of the interval, zero included. *)
Lemma attempted_row_checks_progress (st : state) (row : Row) :
  fs st !! out_path row = None →
  ∃ evs, new_events st (exec (body row) st)
         = evs ++ progress_events cfg total_images (exec (body row) st)
         ∧ List.filter is_progress evs = [].
Proof.
  intros Hnone. destruct (exec_body st row) as [_ Hstep].
  inversion Hstep as [Hsome| | | | |];
    [destruct Hsome as [? ?]; congruence|..];
    (eexists; split;
     [apply progress_new_events; simpl; rewrite <- !app_assoc; reflexivity
     |reflexivity]).
Qed.

(** C3. A row whose file exists is counted as skipped and nothing else
    happens: no request is sent, no file is opened or written, the trace and
    the store are untouched, and the downloaded counter keeps its value. *)
Theorem C3_skip_before_network (st : state) (row : Row) :
  is_Some (fs st !! out_path row) →
  body row st = (Ok tt, bump_skipped st)
  ∧ skipped (exec (body row) st) = S (skipped st)
  ∧ downloaded (exec (body row) st) = downloaded st
  ∧ fs (exec (body row) st) = fs st
  ∧ new_events st (exec (body row) st) = []
  ∧ List.filter is_get (new_events st (exec (body row) st)) = []
  ∧ List.filter is_file_event (new_events st (exec (body row) st)) = [].
Proof.
  intros [c Hc]. destruct (exec_body st row) as [Heq Hstep].
  assert (exec (body row) st = bump_skipped st) as Hex
    by (inversion Hstep; [done | congruence..]).
  rewrite Hex in Heq |- *. rewrite (new_events_same st (bump_skipped st)) by done.
  done.
Qed.

(** C4. A row whose request is answered with a status other than 200, or
    raises, costs one request and one printed line that names the row's
    identifier (and the status code, or the error text); the store is left as
    it was, so no file appears at the row's path, neither counter moves, and
    the loop goes on with the rows that follow. *)
Theorem C4_failure_isolation (st : state) (row : Row) (rest : list Row) :
  fs st !! out_path row = None →
  failed_request (http_get env (length (trace st)) (url_of MAPBOX_TOKEN row)) →
  let r := http_get env (length (trace st)) (url_of MAPBOX_TOKEN row) in
  let line := failure_line (row_id row) r in
  let st' := exec (body row) st in
  body row st = (Ok tt, st')
  ∧ new_events st st'
    = [EvGet (url_of MAPBOX_TOKEN row) 10; EvPrint line]
      ++ progress_events cfg total_images st
  ∧ contains (py_str (row_id row)) line
  ∧ match r with
    | Response status _ => contains (pretty status) line
    | GetRaises e => contains e line
    end
  ∧ fs st' = fs st
  ∧ fs st' !! out_path row = None
  ∧ downloaded st' = downloaded st
  ∧ skipped st' = skipped st
  ∧ for_each body (row :: rest) st = for_each body rest st'.
Proof.
  intros Hnone Hfail r line st'.
  destruct (exec_body st row) as [Heq Hstep]. fold st' in Heq, Hstep.
  assert (contains (py_str (row_id row)) line
          ∧ match r with
            | Response status _ => contains (pretty status) line
            | GetRaises e => contains e line
            end) as [Hid Hwhat].
  { subst line. destruct r as [status data|e]; simpl.
    - split; [apply contains_middle|]. unfold failed_text.
      do 2 apply contains_append_l. apply contains_end.
    - split; [apply contains_middle|]. unfold error_text.
      do 2 apply contains_append_l. apply contains_end. }
  assert (trace st' = trace st ++ [EvGet (url_of MAPBOX_TOKEN row) 10; EvPrint line]
                       ++ progress_events cfg total_images st
          ∧ fs st' = fs st ∧ downloaded st' = downloaded st
          ∧ skipped st' = skipped st) as (Ht & Hf & Hd & Hs).
  { subst line r. unfold failed_request in Hfail.
    inversion Hstep as [Hsome|data ? Hget|status data ? Hget|e ? Hget
                        |data e ? Hget|data k e ? Hget];
      try (destruct Hsome as [? ?]; congruence);
      rewrite Hget in Hfail |- *; try done;
      rewrite progress_fs, progress_downloaded, progress_skipped, progress_trace;
      simpl; rewrite <- !app_assoc; simpl;
      (split_and!; [|done..]); do 2 f_equal; by apply progress_events_counter. }
  split_and!; try done.
  - by apply new_events_app.
  - by rewrite Hf.
  - apply for_each_cons.
Qed.

(** C8, as the code has it.  A row without a file whose request is answered
    200 and whose write goes through: the file is opened at its final path
    and the body written straight into it (no temporary file, no rename);
    afterwards the path holds exactly the response body, every other file is
    as before, and the downloaded counter has gone up by one. *)
Theorem C8_direct_write_on_success (st : state) (row : Row) (data : bytes) :
  fs st !! out_path row = None →
  http_get env (length (trace st)) (url_of MAPBOX_TOKEN row) = Response 200 data →
  disk env (S (length (trace st))) (out_path row) = WriteOk →
  let st' := exec (body row) st in
  body row st = (Ok tt, st')
  ∧ fs st' = <[out_path row := data]> (fs st)
  ∧ fs st' !! out_path row = Some data
  ∧ downloaded st' = S (downloaded st)
  ∧ skipped st' = skipped st
  ∧ new_events st st'
    = [EvGet (url_of MAPBOX_TOKEN row) 10; EvOpenWb (out_path row);
       EvWrite (out_path row) data]
      ++ progress_events cfg total_images st'.
Proof.
  intros Hnone Hget Hdisk st'.
  destruct (exec_body st row) as [Heq Hstep]. fold st' in Heq, Hstep.
  assert (st' = progress cfg total_images
                  (bump_downloaded
                     (emit (EvWrite (out_path row) data)
                        (emit (EvOpenWb (out_path row))
                           (requested MAPBOX_TOKEN row st))))) as Hst.
  { inversion Hstep as [Hsome|? ? Hget'| | | |];
      try (destruct Hsome as [? ?]; congruence); congruence. }
  assert (fs st' = <[out_path row := data]> (fs st)) as Hfs.
  { rewrite Hst, progress_fs. cbn [fs bump_downloaded emit requested].
    by rewrite write_after_open. }
  split_and!; [done | done | | | |].
  - by rewrite Hfs, lookup_insert_eq.
  - by rewrite Hst, progress_downloaded.
  - by rewrite Hst, progress_skipped.
  - apply new_events_app. rewrite Hst at 1. rewrite progress_trace.
    simpl. rewrite <- !app_assoc. simpl. do 4 f_equal.
    apply progress_events_counter. by rewrite Hst, progress_downloaded.
Qed.

(** *** The loop with its counters *)

Local Abbreviation loop := (fetch_loop cfg env MAPBOX_TOKEN total_images).

Lemma fetch_loop_steps (st : state) (df : list Row) :
  loop df st = (Ok tt, exec (loop df) st)
  ∧ steps (reset_counters st) df (exec (loop df) st).
Proof.
  destruct (for_each_steps df (reset_counters st)) as (st' & Heq & Hsteps).
  unfold exec, fetch_loop, modify, mbind, M_bind. by rewrite Heq.
Qed.

Lemma fetch_loop_split (st : state) (df : list Row) (k : nat) :
  loop df st = for_each body (drop k df) (exec (loop (take k df)) st).
Proof.
  unfold exec, fetch_loop, modify, mbind, M_bind.
  rewrite <- (take_drop k df) at 1. apply for_each_app.
Qed.

(** What a run of the loop adds up to: its new events, and the tallies. *)
Lemma fetch_loop_tally (st : state) (df : list Row) :
  let st' := exec (loop df) st in
  downloaded st' + skipped st' + failures (new_events st st') = length df.
Proof.
  intros st'. destruct (fetch_loop_steps st df) as [_ Hsteps]. fold st' in Hsteps.
  destruct (steps_effects _ _ _ Hsteps) as (evs & Ht & _ & _).
  apply steps_counters in Hsteps as (Hsum & _).
  rewrite (new_events_app st st' evs) by done.
  rewrite Ht, failures_app in Hsum. simpl in Hsum. lia.
Qed.

(** C9. Over a whole run of the loop: every file present at the start is
    present with the same content at the end (nothing is deleted, nothing
    overwritten); a file that is new sits at the one path that belongs to the
    identifier of some row; and in the order of events a file is opened for
    writing only where none exists and is written only while still empty. *)
Theorem C9_artifact_monotonicity (st : state) (df : list Row) :
  let st' := exec (loop df) st in
  fs st ⊆ fs st'
  ∧ (∀ q c, fs st !! q = Some c → fs st' !! q = Some c)
  ∧ (∀ q, is_Some (fs st' !! q) →
          is_Some (fs st !! q) ∨ ∃ row, row ∈ df ∧ q = out_path_of (row_id row))
  ∧ fs st' = replay (new_events st st') (fs st)
  ∧ writes_fresh (fs st) (new_events st st').
Proof.
  intros st'. destruct (fetch_loop_steps st df) as [_ Hsteps]. fold st' in Hsteps.
  pose proof (steps_fs_mono _ _ _ Hsteps) as Hmono.
  destruct (steps_effects _ _ _ Hsteps) as (evs & Ht & Hf & Hw).
  rewrite (new_events_app st st' evs) by done.
  split_and!; try done.
  - intros q c Hq. by eapply lookup_weaken.
  - intros q Hq. by apply (steps_new_files _ _ _ _ Hsteps).
Qed.

(** C10. One iteration moves exactly one of three tallies by one: the
    downloaded counter, the skipped counter, or the number of failure lines;
    never two of them.  Hence after the first [k] rows the sum of the two
    counters and the failures is the number of rows processed, the two
    counters together never exceed it, and at the end of the loop they add up
    to the number of rows exactly when no row failed. *)
Theorem C10_counter_invariant (st : state) (df : list Row) :
  (∀ st0 row,
     let st1 := exec (body row) st0 in
     let f := failures (new_events st0 st1) in
     (downloaded st1 = S (downloaded st0) ∧ skipped st1 = skipped st0 ∧ f = 0)
     ∨ (downloaded st1 = downloaded st0 ∧ skipped st1 = S (skipped st0) ∧ f = 0)
     ∨ (downloaded st1 = downloaded st0 ∧ skipped st1 = skipped st0 ∧ f = 1))
  ∧ (∀ k,
       let stk := exec (loop (take k df)) st in
       loop df st = for_each body (drop k df) stk
       ∧ downloaded stk + skipped stk + failures (new_events st stk)
         = k `min` length df
       ∧ downloaded stk + skipped stk ≤ k)
  ∧ (let st' := exec (loop df) st in
     downloaded st' + skipped st' ≤ length df
     ∧ (downloaded st' + skipped st' = length df
        ↔ failures (new_events st st') = 0)).
Proof.
  split_and!.
  - intros st0 row st1 f. destruct (exec_body st0 row) as [_ Hstep].
    fold st1 in Hstep.
    destruct (step_effects _ _ _ Hstep) as (evs & Ht & _ & _).
    apply step_counters in Hstep. subst f.
    rewrite (new_events_app st0 st1 evs) by done.
    rewrite Ht, failures_app in Hstep. lia.
  - intros k stk. pose proof (fetch_loop_tally st (take k df)) as Hsum.
    simpl in Hsum. fold stk in Hsum. rewrite length_take in Hsum.
    split_and!; [apply fetch_loop_split | done | lia].
  - intros st'. pose proof (fetch_loop_tally st df) as Hsum.
    simpl in Hsum. fold st' in Hsum. lia.
Qed.

End StepFacts.

(** ** Re-running the loop *)

(** C1, as the code has it.  When the first run did not fail on any row (its
    two counters add up to the number of rows) and every file it left is still
    there when the second run starts, the second run sends no request, writes
    nothing, downloads nothing and skips every row. *)
Theorem C1_rerun_after_complete_run (cfg : config) (env1 env2 : environment)
    (tok : string) (df : list Row) (files files2 : gmap string bytes) :
  let st1 := run_loop cfg env1 tok df files in
  downloaded st1 + skipped st1 = length df →
  (∀ q, is_Some (fs st1 !! q) → is_Some (files2 !! q)) →
  let st2 := run_loop cfg env2 tok df files2 in
  downloaded st2 = 0
  ∧ skipped st2 = length df
  ∧ trace st2 = []
  ∧ fs st2 = files2.
Proof.
  intros st1 Hsum Hkept st2.
  destruct (fetch_loop_steps cfg env1 tok (length df) (init_state files) df)
    as [_ Hsteps1].
  destruct (fetch_loop_steps cfg env2 tok (length df) (init_state files2) df)
    as [_ Hsteps2].
  fold (run_loop cfg env1 tok df files) in Hsteps1.
  fold (run_loop cfg env2 tok df files2) in Hsteps2.
  fold st1 in Hsteps1. fold st2 in Hsteps2.
  pose proof (steps_complete _ _ _ _ _ _ _ Hsteps1 Hsum) as Hall.
  assert (∀ row, row ∈ df →
            is_Some (fs (reset_counters (init_state files2)) !! out_path row))
    as Hpresent by (intros row Hrow; apply Hkept, Hall, Hrow).
  destruct (steps_all_present _ _ _ _ _ _ _ Hpresent Hsteps2)
    as (Hf & Ht & Hd & Hs).
  by rewrite Hf, Ht, Hd, Hs.
Qed.

(** The second run of C1 need not be idle: a row refused in the first run
    has no file, so the second run requests it again and, the service being
    back, downloads it.  Every file the first run left is still there. *)
Lemma C1_second_run_downloads :
  fs refused_run = ∅
  ∧ downloaded retry_run = 1
  ∧ skipped retry_run = 0
  ∧ ¬ (downloaded retry_run = 0 ∧ skipped retry_run = length [house 1]).
Proof.
  assert (downloaded retry_run = 1) as Hd by (vm_compute; reflexivity).
  split_and!; [vm_compute; reflexivity | done | vm_compute; reflexivity |].
  rewrite Hd. intros [? _]. discriminate.
Qed.

(** ** The progress line *)

(** C2, at two runs of the code.  With the interval of the source (50), a
    single row whose request is refused is followed by the line
    [Downloaded 0/1 images]: a progress line after a failed row, at a count
    that is not a positive multiple of the interval.  With interval 2, two
    downloads followed by a refused row give the line [Downloaded 2/3 images]
    twice, though the counter reached a multiple of 2 once. *)
Theorem C2_progress_line_after_failed_row :
  trace refused_run
  = [EvGet (url_of "tok" (house 1)) 10;
     EvPrint "⚠️ Failed ID 1 | HTTP 404";
     EvPrint "Downloaded 0/1 images"]
  ∧ downloaded refused_run = 0
  ∧ downloaded cadence_run = 2
  ∧ failures (trace cadence_run) = 1
  ∧ List.filter is_progress (trace cadence_run)
    = [EvPrint "Downloaded 2/3 images"; EvPrint "Downloaded 2/3 images"].
Proof. split_and!; vm_compute; reflexivity. Qed.

(** ** The URL builder *)

(** C5. The URL is the fixed prefix followed by longitude, latitude and zoom
    in that order, the size twice, and the token as [access_token]; it is a
    function of its arguments and the token alone.  For latitude 47.6 and
    longitude -122.3 at zoom 17 and size 256 it contains [-122.3,47.6,17],
    [256x256] and the token. *)
Theorem C5_url_builder :
  (∀ tok lat lon zoom size,
     mapbox_url tok lat lon zoom size
     = "https://api.mapbox.com/styles/v1/mapbox/satellite-v9/static/"
       +:+ py_str lon +:+ "," +:+ py_str lat +:+ "," +:+ py_str zoom
       +:+ "/" +:+ py_str size +:+ "x" +:+ py_str size
       +:+ "?access_token=" +:+ tok)
  ∧ (∀ tok lat lon zoom size,
       contains (py_str lon +:+ "," +:+ py_str lat +:+ "," +:+ py_str zoom)
         (mapbox_url tok lat lon zoom size))
  ∧ (∀ tok row, url_of tok row
       = mapbox_url tok (row_lat row) (row_long row) (PyInt 17) (PyInt 256))
  ∧ (∀ tok,
       let url := mapbox_url tok (PyFloat "47.6") (PyFloat "-122.3")
                    (PyInt 17) (PyInt 256) in
       url = "https://api.mapbox.com/styles/v1/mapbox/satellite-v9/static/-122.3,47.6,17/256x256?access_token="
             +:+ tok
       ∧ contains "-122.3,47.6,17" url
       ∧ contains "256x256" url
       ∧ contains ("access_token=" +:+ tok) url).
Proof.
  split_and!.
  - reflexivity.
  - intros tok lat lon zoom size. unfold mapbox_url.
    exists "https://api.mapbox.com/styles/v1/mapbox/satellite-v9/static/",
      ("/" +:+ py_str size +:+ "x" +:+ py_str size +:+ "?access_token=" +:+ tok).
    by rewrite !append_assoc.
  - reflexivity.
  - intros tok url. split_and!.
    + vm_compute. reflexivity.
    + exists "https://api.mapbox.com/styles/v1/mapbox/satellite-v9/static/",
        ("/256x256?access_token=" +:+ tok).
      vm_compute. reflexivity.
    + exists "https://api.mapbox.com/styles/v1/mapbox/satellite-v9/static/-122.3,47.6,17/",
        ("?access_token=" +:+ tok).
      vm_compute. reflexivity.
    + exists "https://api.mapbox.com/styles/v1/mapbox/satellite-v9/static/-122.3,47.6,17/256x256?",
        "".
      rewrite append_empty_r. vm_compute. reflexivity.
Qed.

(** ** Start-up *)

(** C6. Without a token in the environment (after the [.env] file has been
    merged in), or with an empty one, the script raises [RuntimeError] with
    its message and leaves the world exactly as it found it: no directory
    made, no table read, nothing printed, no request, no file. *)
Theorem C6_credential_precondition (cfg : config) (env : environment)
    (rs : Z → rng) (st : state) :
  getenv env "MAPBOX_TOKEN" = None ∨ getenv env "MAPBOX_TOKEN" = Some "" →
  script cfg env rs st
  = (Raise (RuntimeError "MAPBOX_TOKEN not found in .env file"), st)
  ∧ exec (script cfg env rs) st = st
  ∧ new_events st (exec (script cfg env rs) st) = [].
Proof.
  intros Htok.
  assert (script cfg env rs st
          = (Raise (RuntimeError "MAPBOX_TOKEN not found in .env file"), st)) as Heq.
  { unfold script. by destruct Htok as [-> | ->]. }
  unfold exec. rewrite Heq. split_and!; [done..|].
  unfold new_events. apply drop_all.
Qed.

(** ** Sampling *)

Lemma omap_lookup_Forall2 (df : list Row) (locs : list nat) :
  Forall (λ i, i < length df) locs →
  Forall2 (λ i row, df !! i = Some row) locs (omap (λ i, df !! i) locs).
Proof.
  induction 1 as [|i locs Hi _ IH]; [constructor|].
  apply lookup_lt_is_Some_2 in Hi as [row Hrow].
  simpl. rewrite Hrow. by constructor.
Qed.

Lemma first_rows_contract : choice_contract first_rows.
Proof.
  intros population size Hle. simpl. split_and!.
  - apply length_seq.
  - apply NoDup_seq.
  - apply Forall_seq. intros j Hj. lia.
Qed.

(** The loader in sample mode: it returns the rows at the positions drawn by
    a generator seeded with 42, asked for [min(SAMPLE_SIZE, len(df))]
    positions, whatever the process-wide generator is; when the generator
    keeps numpy's promise for draws without replacement, these are that many
    rows at distinct positions of the table. *)
Lemma sample_mode_draw (cfg : config) (env1 env2 : environment)
    (rs : Z → rng) (st1 st2 : state) (df : list Row) :
  USE_SAMPLE cfg = true →
  excel env1 DATA_PATH = Some df →
  excel env2 DATA_PATH = Some df →
  let n := SAMPLE_SIZE cfg `min` length df in
  let locs := choice (rs 42%Z) (length df) n in
  let sample := omap (λ i, df !! i) locs in
  (load_dataset cfg env1 rs st1).1 = Ok sample
  ∧ (load_dataset cfg env2 rs st2).1 = Ok sample
  ∧ (∀ sample1 sample2,
       (load_dataset cfg env1 rs st1).1 = Ok sample1 →
       (load_dataset cfg env2 rs st2).1 = Ok sample2 →
       row_id <$> sample1 = row_id <$> sample2)
  ∧ (choice_contract (rs 42%Z) →
     length sample = n
     ∧ NoDup locs
     ∧ Forall2 (λ i row, df !! i = Some row) locs sample).
Proof.
  intros Hmode Hx1 Hx2 n locs sample.
  assert (∀ env st, excel env DATA_PATH = Some df →
            (load_dataset cfg env rs st).1 = Ok sample) as Hload.
  { intros env st Hx. unfold load_dataset, read_excel, mbind, M_bind.
    by rewrite Hx, Hmode. }
  split_and!.
  - by apply Hload.
  - by apply Hload.
  - intros s1 s2. rewrite !Hload by done. congruence.
  - intros Hcontract.
    destruct (Hcontract (length df) n) as (Hlen & Hnodup & Hbound);
      [subst n; lia|].
    pose proof (omap_lookup_Forall2 df locs Hbound) as Hrows.
    split_and!; [|done..].
    apply Forall2_length in Hrows. fold sample in Hrows. subst locs. lia.
Qed.

(** ** Writing the image *)

(** The write of C8 is not atomic.  A process killed between opening the
    file and writing into it leaves an empty file at the final path; the next
    run finds a file there, skips the row without a request and leaves the
    empty file in place of the image. *)
Lemma C8_kill_leaves_truncated_file :
  http_get online 0 (url_of "tok" (house 1)) = Response 200 jpeg
  ∧ trace single_download
    = [EvGet (url_of "tok" (house 1)) 10;
       EvOpenWb (out_path (house 1));
       EvWrite (out_path (house 1)) jpeg]
  ∧ fs single_download !! out_path (house 1) = Some jpeg
  ∧ killed_after 2 !! out_path (house 1) = Some []
  ∧ Some [] ≠ Some jpeg
  ∧ skipped run_after_kill = 1
  ∧ downloaded run_after_kill = 0
  ∧ trace run_after_kill = []
  ∧ fs run_after_kill !! out_path (house 1) = Some [].
Proof. split_and!; try (vm_compute; reflexivity). discriminate. Qed.

(** ** The theorems at work on the sample worlds *)

Lemma C1_witness :
  downloaded full_run + skipped full_run = length three_houses
  ∧ downloaded (run_loop default_config not_found "tok" three_houses (fs full_run)) = 0
  ∧ skipped (run_loop default_config not_found "tok" three_houses (fs full_run)) = 3
  ∧ trace (run_loop default_config not_found "tok" three_houses (fs full_run)) = []
  ∧ fs (run_loop default_config not_found "tok" three_houses (fs full_run)) = fs full_run.
Proof.
  assert (downloaded full_run + skipped full_run = length three_houses) as Hsum
    by (vm_compute; reflexivity).
  split; [exact Hsum|].
  exact (C1_rerun_after_complete_run default_config online not_found "tok"
           three_houses ∅ (fs full_run) Hsum (λ q Hq, Hq)).
Defined.

Lemma C3_witness :
  is_Some (fs (init_state fetched_once) !! out_path (house 1))
  ∧ process_row default_config online "tok" 3 (house 1) (init_state fetched_once)
    = (Ok tt, bump_skipped (init_state fetched_once)).
Proof.
  assert (is_Some (fs (init_state fetched_once) !! out_path (house 1))) as Hthere
    by (exists jpeg; vm_compute; reflexivity).
  split; [exact Hthere|].
  exact (proj1 (C3_skip_before_network default_config online "tok" 3
                  (init_state fetched_once) (house 1) Hthere)).
Defined.

Lemma C4_witness :
  fs (init_state ∅) !! out_path (house 1) = None
  ∧ failed_request (http_get not_found 0 (url_of "tok" (house 1)))
  ∧ process_row default_config not_found "tok" 3 (house 1) (init_state ∅)
    = (Ok tt, exec (process_row default_config not_found "tok" 3 (house 1))
                (init_state ∅)).
Proof.
  assert (fs (init_state ∅) !! out_path (house 1) = None) as Habsent
    by (vm_compute; reflexivity).
  assert (failed_request (http_get not_found 0 (url_of "tok" (house 1)))) as Hfail
    by (simpl; lia).
  split_and!; [exact Habsent | exact Hfail |].
  exact (proj1 (C4_failure_isolation default_config not_found "tok" 3
                  (init_state ∅) (house 1) [] Habsent Hfail)).
Defined.

Lemma C6_witness :
  getenv draw_a "MAPBOX_TOKEN" = None
  ∧ script default_config draw_a (λ _, first_rows) (init_state ∅)
    = (Raise (RuntimeError "MAPBOX_TOKEN not found in .env file"), init_state ∅).
Proof.
  assert (getenv draw_a "MAPBOX_TOKEN" = None) as Hnone
    by (vm_compute; reflexivity).
  split; [exact Hnone|].
  exact (proj1 (C6_credential_precondition default_config draw_a
                  (λ _, first_rows) (init_state ∅) (or_introl Hnone))).
Defined.

Lemma sample_mode_draw_example :
  USE_SAMPLE sampling = true
  ∧ excel draw_a DATA_PATH = Some three_houses
  ∧ excel draw_b DATA_PATH = Some three_houses
  ∧ choice_contract first_rows
  ∧ (load_dataset sampling draw_a (λ _, first_rows) (init_state ∅)).1
    = Ok [house 1; house 2]
  ∧ (load_dataset sampling draw_b (λ _, first_rows) (init_state fetched_once)).1
    = Ok [house 1; house 2]
  ∧ length [house 1; house 2] = 2.
Proof.
  destruct (sample_mode_draw sampling draw_a draw_b (λ _, first_rows)
              (init_state ∅) (init_state fetched_once) three_houses
              eq_refl eq_refl eq_refl) as (Ha & Hb & _ & Hsize).
  destruct (Hsize first_rows_contract) as (Hlen & _ & _).
  split_and!; [reflexivity | reflexivity | reflexivity
              | exact first_rows_contract | exact Ha | exact Hb | exact Hlen].
Defined.

Lemma C8_witness :
  fs (init_state ∅) !! out_path (house 1) = None
  ∧ http_get online 0 (url_of "tok" (house 1)) = Response 200 jpeg
  ∧ disk online 1 (out_path (house 1)) = WriteOk
  ∧ fs (exec (process_row default_config online "tok" 3 (house 1)) (init_state ∅))
    = <[out_path (house 1) := jpeg]> ∅
  ∧ downloaded (exec (process_row default_config online "tok" 3 (house 1))
                  (init_state ∅)) = 1.
Proof.
  assert (fs (init_state ∅) !! out_path (house 1) = None) as Habsent
    by (vm_compute; reflexivity).
  destruct (C8_direct_write_on_success default_config online "tok" 3
              (init_state ∅) (house 1) jpeg Habsent eq_refl eq_refl)
    as (_ & Hfs & _ & Hd & _).
  split_and!; [exact Habsent | reflexivity | reflexivity | exact Hfs | exact Hd].
Defined.

(** * Further properties of the loop and of the script *)

Section LoopFacts.

Variable cfg : config.
Variable env : environment.
Variable MAPBOX_TOKEN : string.
Variable total_images : nat.

Local Abbreviation body := (process_row cfg env MAPBOX_TOKEN total_images).
Local Abbreviation step := (row_step cfg env MAPBOX_TOKEN total_images).
Local Abbreviation steps := (rows_steps cfg env MAPBOX_TOKEN total_images).
Local Abbreviation loop := (fetch_loop cfg env MAPBOX_TOKEN total_images).

(** *** Counting events *)

Lemma count_app (f : event → bool) (evs1 evs2 : list event) :
  count f (evs1 ++ evs2) = count f evs1 + count f evs2.
Proof. unfold count. by rewrite List.filter_app, length_app. Qed.

Lemma count_one (f : event → bool) (ev : event) :
  count f [ev] = if f ev then 1 else 0.
Proof. unfold count. simpl. by destruct (f ev). Qed.

Lemma requests_of_app (evs1 evs2 : list event) :
  requests_of (evs1 ++ evs2) = requests_of evs1 ++ requests_of evs2.
Proof. apply omap_app. Qed.

Lemma count_progress_events (st : state) :
  count is_progress (progress_events cfg total_images st)
  = due_lines cfg (downloaded st).
Proof.
  unfold progress_events, due_lines.
  destruct (progress_due cfg (downloaded st)); [|done].
  rewrite count_one. cbn [is_progress]. by rewrite progress_text_is_progress.
Qed.

Lemma requests_of_progress_events (st : state) :
  requests_of (progress_events cfg total_images st) = [].
Proof. unfold progress_events. by destruct (progress_due cfg (downloaded st)). Qed.

Lemma failed_text_not_progress pid status :
  String.prefix "Downloaded " (failed_text pid status) = false.
Proof. reflexivity. Qed.

Lemma error_text_not_progress pid e :
  String.prefix "Downloaded " (error_text pid e) = false.
Proof. reflexivity. Qed.

(** *** One iteration, tallied *)

(** A skipped row changes the skip counter only.  Any other row costs one
    request, the one for that row, and is either a download, which puts a
    file at the row's path, or a failure, which prints one failure line and
    leaves at most a partial file there; either way the progress check runs
    on the counter as it stands afterwards. *)
Lemma step_tally (st st' : state) (row : Row) :
  step st row st' →
  (is_Some (fs st !! out_path row) ∧ st' = bump_skipped st)
  ∨ (fs st !! out_path row = None
     ∧ requests_of (trace st')
       = requests_of (trace st) ++ [request_for MAPBOX_TOKEN row]
     ∧ skipped st' = skipped st
     ∧ ((downloaded st' = S (downloaded st)
         ∧ failures (trace st') = failures (trace st)
         ∧ count is_progress (trace st')
           = count is_progress (trace st) + due_lines cfg (S (downloaded st))
         ∧ ∃ data, fs st' = <[out_path row := data]> (fs st))
        ∨ (downloaded st' = downloaded st
           ∧ failures (trace st') = S (failures (trace st))
           ∧ count is_progress (trace st')
             = count is_progress (trace st) + due_lines cfg (downloaded st)
           ∧ (fs st' = fs st
              ∨ ∃ part, fs st' = <[out_path row := part]> (fs st))))).
Proof.
  intros H.
  inversion H as [Hsome|data Hnone Hget Hdisk|status data Hnone Hget Hne
                  |e Hnone Hget|data e Hnone Hget Hdisk
                  |data k e Hnone Hget Hdisk]; subst st'; [by left|right..];
    rewrite progress_fs, progress_downloaded, progress_skipped,
      ?failures_progress, progress_trace, requests_of_app, count_app,
      requests_of_progress_events, count_progress_events, app_nil_r;
    cbn [fs trace downloaded skipped emit requested bump_downloaded];
    rewrite ?write_after_open; cbn [apply_event];
    rewrite ?requests_of_app, ?count_app, ?count_one, ?app_nil_r;
    rewrite ?failures_failed_line, ?failures_error_line;
    rewrite ?failures_other by done;
    cbn [requests_of omap is_progress is_get];
    rewrite ?failed_text_not_progress, ?error_text_not_progress, ?app_nil_r;
    (split_and!; [done | reflexivity || (by rewrite ?app_nil_r) | done |]).
  - left. split_and!; [done | done | lia | by exists data].
  - right. split_and!; [done | done | lia | by left].
  - right. split_and!; [done | done | lia | by left].
  - right. split_and!; [done | done | lia | by left].
  - right. split_and!; [done | done | lia | right; by exists (take k data)].
Qed.

(** *** Requests *)

Lemma steps_requests (st st' : state) (df : list Row) :
  steps st df st' →
  ∃ reqs, requests_of (trace st') = requests_of (trace st) ++ reqs
          ∧ reqs `sublist_of` (request_for MAPBOX_TOKEN <$> df)
          ∧ length reqs + skipped st' = skipped st + length df
          ∧ length reqs + downloaded st + failures (trace st)
            = downloaded st' + failures (trace st').
Proof.
  induction 1 as [st|st row st1 rest st2 Hstep _ IH].
  - exists []. rewrite app_nil_r. simpl. split_and!; [done | constructor | lia..].
  - destruct IH as (reqs & Hreqs & Hsub & Hskip & Hsum).
    apply step_tally in Hstep as [[_ ->]|(_ & Hr & Hs & Hcase)].
    + exists reqs. simpl in *. split_and!; [done | by constructor | lia..].
    + exists (request_for MAPBOX_TOKEN row :: reqs).
      rewrite Hreqs, Hr, <- app_assoc. simpl.
      split_and!; [done | by constructor | lia |].
      destruct Hcase as [(? & ? & _)|(? & ? & _)]; lia.
Qed.

(** X. The requests of a run are requests for rows of the data set, in the
    order of the rows and at most one per row, each with timeout 10.  Their
    number is the number of downloads plus the number of failures, and
    together with the skipped rows they account for every row: no row is
    requested twice in a run, none is passed over without being counted. *)
Theorem loop_requests (st : state) (df : list Row) :
  let st' := exec (loop df) st in
  let reqs := requests_of (new_events st st') in
  reqs `sublist_of` (request_for MAPBOX_TOKEN <$> df)
  ∧ length reqs = downloaded st' + failures (new_events st st')
  ∧ length reqs + skipped st' = length df.
Proof.
  intros st' reqs.
  destruct (fetch_loop_steps cfg env MAPBOX_TOKEN total_images st df)
    as [_ Hsteps]. fold st' in Hsteps.
  destruct (steps_effects _ _ _ _ _ _ _ Hsteps) as (evs & Ht & _ & _).
  destruct (steps_requests _ _ _ Hsteps) as (rs & Hrs & Hsub & Hskip & Hsum).
  cbn [trace reset_counters downloaded skipped] in *.
  assert (reqs = rs) as ->.
  { subst reqs. rewrite (new_events_app st st' evs) by done.
    rewrite Ht, requests_of_app in Hrs. by apply app_inv_head in Hrs. }
  rewrite (new_events_app st st' evs) by done.
  rewrite Ht, failures_app in Hsum. split_and!; [done | lia | lia].
Qed.

(** *** Progress lines *)

Lemma div_succ (d : nat) :
  S d / Pos.to_nat (PROGRESS_INTERVAL cfg)
  = d / Pos.to_nat (PROGRESS_INTERVAL cfg) + due_lines cfg (S d).
Proof.
  unfold due_lines, progress_due.
  pose proof (Pos2Nat.is_pos (PROGRESS_INTERVAL cfg)) as Hpos.
  set (n := Pos.to_nat (PROGRESS_INTERVAL cfg)) in *.
  pose proof (Nat.div_mod_eq d n) as Hd.
  pose proof (Nat.mod_upper_bound d n ltac:(lia)) as Hr.
  destruct (decide (S (d mod n) = n)) as [Hfull|Hpart].
  - assert (S d = n * S (d / n) + 0) as Heq by lia.
    rewrite <- (Nat.div_unique (S d) n (S (d / n)) 0) by lia.
    rewrite <- (Nat.mod_unique (S d) n (S (d / n)) 0) by lia.
    simpl. lia.
  - assert (S d = n * (d / n) + S (d mod n)) as Heq by lia.
    rewrite <- (Nat.div_unique (S d) n (d / n) (S (d mod n))) by lia.
    rewrite <- (Nat.mod_unique (S d) n (d / n) (S (d mod n))) by lia.
    simpl. lia.
Qed.

Lemma due_lines_le (d : nat) : due_lines cfg d ≤ 1.
Proof. unfold due_lines. destruct (progress_due cfg d); lia. Qed.

Lemma steps_progress (st st' : state) (df : list Row) :
  steps st df st' →
  let n := Pos.to_nat (PROGRESS_INTERVAL cfg) in
  count is_progress (trace st) + downloaded st' / n
  ≤ count is_progress (trace st') + downloaded st / n
  ∧ count is_progress (trace st') + downloaded st / n + failures (trace st)
    ≤ count is_progress (trace st) + downloaded st' / n + failures (trace st').
Proof.
  intros Hsteps n. induction Hsteps as [st|st row st1 rest st2 Hstep _ IH].
  - lia.
  - apply step_tally in Hstep as [[_ ->]|(_ & _ & _ & Hcase)].
    + simpl in IH. lia.
    + destruct Hcase as [(Hd & Hf & Hp & _)|(Hd & Hf & Hp & _)].
      * rewrite Hd, Hf, Hp in IH. fold n in IH.
        pose proof (div_succ (downloaded st)) as Hdiv. fold n in Hdiv. lia.
      * rewrite Hd, Hf, Hp in IH.
        pose proof (due_lines_le (downloaded st)). lia.
Qed.

(** X. In a run of the loop, the number of progress lines is at least the
    number of completed intervals, [downloaded / PROGRESS_INTERVAL], and
    exceeds it by at most the number of failed rows.  So every
    [PROGRESS_INTERVAL]-th download is reported, and a run without failures
    prints exactly one line per interval. *)
Theorem progress_lines_bounds (st : state) (df : list Row) :
  let st' := exec (loop df) st in
  let lines := count is_progress (new_events st st') in
  let intervals := downloaded st' / Pos.to_nat (PROGRESS_INTERVAL cfg) in
  intervals ≤ lines ∧ lines ≤ intervals + failures (new_events st st').
Proof.
  intros st' lines intervals.
  destruct (fetch_loop_steps cfg env MAPBOX_TOKEN total_images st df)
    as [_ Hsteps]. fold st' in Hsteps.
  destruct (steps_effects _ _ _ _ _ _ _ Hsteps) as (evs & Ht & _ & _).
  apply steps_progress in Hsteps.
  cbn [trace reset_counters downloaded] in *. subst lines intervals.
  rewrite (new_events_app st st' evs) by done.
  rewrite Ht, count_app, failures_app in Hsteps.
  rewrite Nat.Div0.div_0_l in Hsteps. lia.
Qed.

(** *** Downloads and files *)

Lemma steps_files (st st' : state) (df : list Row) :
  steps st df st' →
  size (fs st) + downloaded st' ≤ size (fs st') + downloaded st.
Proof.
  induction 1 as [st|st row st1 rest st2 Hstep _ IH]; [lia|].
  apply step_tally in Hstep as [[_ ->]|(Hnone & _ & _ & Hcase)]; [done|].
  destruct Hcase as [(Hd & _ & _ & data & Hfs)
                    |(Hd & _ & _ & [Hfs|(part & Hfs)])];
    rewrite Hd, Hfs in IH; rewrite ?map_size_insert_None in IH by done; lia.
Qed.

(** X. Every download the counter reports is a file that was not there
    before: over a run the store grows by at least [downloaded] files.  Rows
    that share an identifier are therefore never counted as two downloads. *)
Theorem downloads_are_new_files (st : state) (df : list Row) :
  let st' := exec (loop df) st in
  size (fs st) + downloaded st' ≤ size (fs st').
Proof.
  intros st'.
  destruct (fetch_loop_steps cfg env MAPBOX_TOKEN total_images st df)
    as [_ Hsteps]. fold st' in Hsteps.
  apply steps_files in Hsteps. simpl in Hsteps. lia.
Qed.

(** *** A service and a disk that never fail *)

Lemma reliable_step (st st' : state) (row : Row) :
  (∀ t url, ∃ data, http_get env t url = Response 200 data) →
  (∀ t p, disk env t p = WriteOk) →
  step st row st' →
  failures (trace st') = failures (trace st)
  ∧ size (fs st') + downloaded st = size (fs st) + downloaded st'.
Proof.
  intros Hnet Hdisk Hstep.
  assert (failures (trace st') = failures (trace st)) as Hf.
  { inversion Hstep as [|data Hnone Hget Hd|status data Hnone Hget Hne
                        |e Hnone Hget|data e Hnone Hget Hd
                        |data k e Hnone Hget Hd]; subst st'.
    - done.
    - rewrite failures_progress. simpl. by rewrite !failures_other.
    - destruct (Hnet (length (trace st)) (url_of MAPBOX_TOKEN row)); congruence.
    - destruct (Hnet (length (trace st)) (url_of MAPBOX_TOKEN row)); congruence.
    - rewrite Hdisk in Hd. discriminate.
    - rewrite Hdisk in Hd. discriminate. }
  split; [done|].
  apply step_tally in Hstep as [[_ ->]|(Hnone & _ & _ & Hcase)]; [done|].
  destruct Hcase as [(Hd & _ & _ & data & Hfs)|(_ & Hbad & _)]; [|lia].
  rewrite Hd, Hfs, map_size_insert_None by done. lia.
Qed.

Lemma reliable_steps (st st' : state) (df : list Row) :
  (∀ t url, ∃ data, http_get env t url = Response 200 data) →
  (∀ t p, disk env t p = WriteOk) →
  steps st df st' →
  failures (trace st') = failures (trace st)
  ∧ size (fs st') + downloaded st = size (fs st) + downloaded st'.
Proof.
  intros Hnet Hdisk. induction 1 as [st|st row st1 rest st2 Hstep _ IH]; [done|].
  apply (reliable_step _ _ _ Hnet Hdisk) in Hstep. lia.
Qed.

(** X. When every request is answered 200 and every write goes through, no
    row fails: each row is downloaded or skipped, the file of every row is on
    disk at the end, and the downloaded counter is exactly the number of
    files the run added. *)
Theorem reliable_run (st : state) (df : list Row) :
  (∀ t url, ∃ data, http_get env t url = Response 200 data) →
  (∀ t p, disk env t p = WriteOk) →
  let st' := exec (loop df) st in
  failures (new_events st st') = 0
  ∧ downloaded st' + skipped st' = length df
  ∧ (∀ row, row ∈ df → is_Some (fs st' !! out_path row))
  ∧ size (fs st') = size (fs st) + downloaded st'.
Proof.
  intros Hnet Hdisk st'.
  destruct (fetch_loop_steps cfg env MAPBOX_TOKEN total_images st df)
    as [_ Hsteps]. fold st' in Hsteps.
  destruct (steps_effects _ _ _ _ _ _ _ Hsteps) as (evs & Ht & _ & _).
  destruct (reliable_steps _ _ _ Hnet Hdisk Hsteps) as [Hf Hsize].
  pose proof (steps_counters _ _ _ _ _ _ _ Hsteps) as (Hsum & _).
  cbn [trace fs reset_counters downloaded skipped] in *.
  assert (downloaded st' + skipped st' = length df) as Hall by lia.
  rewrite (new_events_app st st' evs) by done.
  rewrite Ht, failures_app in Hf.
  split_and!; [lia | done | | lia].
  apply (steps_complete _ _ _ _ _ _ _ Hsteps). simpl. lia.
Qed.

(** *** Errors while writing *)

(** X. When the request succeeds but the file cannot be opened, the error
    is caught like a network error: one request, one error line that names
    the row, no file, both counters unchanged, and the loop goes on. *)
Theorem open_error_is_isolated (st : state) (row : Row) (rest : list Row)
    (data : bytes) (e : string) :
  fs st !! out_path row = None →
  http_get env (length (trace st)) (url_of MAPBOX_TOKEN row) = Response 200 data →
  disk env (S (length (trace st))) (out_path row) = OpenRaises e →
  let st' := exec (body row) st in
  new_events st st'
  = [EvGet (url_of MAPBOX_TOKEN row) 10;
     EvPrint (error_text (row_id row) (OSError e))]
    ++ progress_events cfg total_images st
  ∧ contains (py_str (row_id row)) (error_text (row_id row) (OSError e))
  ∧ fs st' = fs st
  ∧ downloaded st' = downloaded st
  ∧ skipped st' = skipped st
  ∧ for_each body (row :: rest) st = for_each body rest st'.
Proof.
  intros Hnone Hget Hdisk st'.
  destruct (exec_body cfg env MAPBOX_TOKEN total_images st row) as [_ Hstep].
  fold st' in Hstep.
  assert (st' = progress cfg total_images
                  (emit (EvPrint (error_text (row_id row) (OSError e)))
                     (requested MAPBOX_TOKEN row st))) as Hst.
  { inversion Hstep as [Hsome| | | | |];
      try (destruct Hsome as [? ?]; congruence); congruence. }
  split_and!.
  - apply new_events_app. rewrite Hst, progress_trace. simpl.
    rewrite <- !app_assoc. reflexivity.
  - apply contains_middle.
  - by rewrite Hst, progress_fs.
  - by rewrite Hst, progress_downloaded.
  - by rewrite Hst, progress_skipped.
  - apply for_each_cons.
Qed.

(** X. When the write breaks off after [k] bytes, the file stays at the
    row's path with those [k] bytes.  The row is reported as an error and
    not counted as downloaded, yet from then on the skip check finds a file:
    the same row, met again, is counted as already there and is never
    requested again. *)
Theorem write_error_leaves_partial_file (st : state) (row : Row)
    (data : bytes) (k : nat) (e : string) :
  fs st !! out_path row = None →
  http_get env (length (trace st)) (url_of MAPBOX_TOKEN row) = Response 200 data →
  disk env (S (length (trace st))) (out_path row) = WriteRaises k e →
  let st' := exec (body row) st in
  fs st' = <[out_path row := take k data]> (fs st)
  ∧ downloaded st' = downloaded st
  ∧ skipped st' = skipped st
  ∧ failures (new_events st st') = 1
  ∧ new_events st st'
    = [EvGet (url_of MAPBOX_TOKEN row) 10; EvOpenWb (out_path row);
       EvWrite (out_path row) (take k data);
       EvPrint (error_text (row_id row) (OSError e))]
      ++ progress_events cfg total_images st
  ∧ body row st' = (Ok tt, bump_skipped st').
Proof.
  intros Hnone Hget Hdisk st'.
  destruct (exec_body cfg env MAPBOX_TOKEN total_images st row) as [_ Hstep].
  fold st' in Hstep.
  assert (st' = progress cfg total_images
                  (emit (EvPrint (error_text (row_id row) (OSError e)))
                     (emit (EvWrite (out_path row) (take k data))
                        (emit (EvOpenWb (out_path row))
                           (requested MAPBOX_TOKEN row st))))) as Hst.
  { inversion Hstep as [Hsome| | | | |];
      try (destruct Hsome as [? ?]; congruence); congruence. }
  assert (fs st' = <[out_path row := take k data]> (fs st)) as Hfs.
  { rewrite Hst, progress_fs. cbn [fs emit requested].
    rewrite write_after_open. done. }
  assert (new_events st st'
          = [EvGet (url_of MAPBOX_TOKEN row) 10; EvOpenWb (out_path row);
             EvWrite (out_path row) (take k data);
             EvPrint (error_text (row_id row) (OSError e))]
            ++ progress_events cfg total_images st) as Hev.
  { apply new_events_app. rewrite Hst, progress_trace. simpl.
    rewrite <- !app_assoc. reflexivity. }
  split_and!; [done | by rewrite Hst, progress_downloaded
              | by rewrite Hst, progress_skipped | | done |].
  - rewrite Hev, failures_app. unfold progress_events.
    unfold failures at 1. simpl. rewrite error_text_is_failure.
    destruct (progress_due cfg (downloaded st)); reflexivity.
  - destruct (exec_body cfg env MAPBOX_TOKEN total_images st' row)
      as [Heq Hagain].
    assert (is_Some (fs st' !! out_path row)) as [c Hc]
      by (rewrite Hfs, lookup_insert_eq; eauto).
    rewrite Heq. f_equal.
    inversion Hagain; [done | congruence..].
Qed.

End LoopFacts.

(** ** Running the loop again *)

Lemma steps_rerun (cfg : config) (env1 env2 : environment) (tok : string)
    (total1 total2 : nat) (df : list Row) (st1 st1' : state) :
  rows_steps cfg env1 tok total1 st1 df st1' →
  ∀ st2 st2',
    rows_steps cfg env2 tok total2 st2 df st2' →
    (∀ q, is_Some (fs st1' !! q) → is_Some (fs st2 !! q)) →
    downloaded st1' + skipped st1' + skipped st2
    ≤ downloaded st1 + skipped st1 + skipped st2'.
Proof.
  induction 1 as [st1|st1 row mid1 rest st1' Hstep1 Hrest1 IH];
    intros st2 st2' Hsteps2 Hkept.
  - inversion Hsteps2; subst. lia.
  - inversion Hsteps2 as [|? ? mid2 ? ? Hstep2 Hrest2]; subst.
    pose proof (steps_fs_mono _ _ _ _ _ _ _ Hrest1) as Hmono1.
    pose proof (step_fs_mono _ _ _ _ _ _ _ Hstep2) as Hmono2.
    assert (downloaded st1' + skipped st1' + skipped mid2
            ≤ downloaded mid1 + skipped mid1 + skipped st2') as Hrest.
    { apply IH; [done|]. intros q Hq.
      apply (is_Some_mono (fs st2)); [done | by apply Hkept]. }
    pose proof (step_counters _ _ _ _ _ _ _ Hstep2) as Hc2.
    destruct (step_counters _ _ _ _ _ _ _ Hstep1)
      as [(?&?&?&Hfile)|[(?&?&?&Hfile)|(?&?&?)]]; [| |lia];
      (assert (mid2 = bump_skipped st2) as ->;
       [|simpl in Hrest; lia]);
      (assert (is_Some (fs st2 !! out_path row)) as [c Hc]
         by (apply Hkept; by apply (is_Some_mono (fs mid1))));
      inversion Hstep2; [done | congruence..].
Qed.

(** X. Resuming.  A second run over the same rows, started on a store that
    still has every file the first run left, skips at least the rows the
    first run downloaded or skipped, and sends at most as many requests as
    the first run had failures: only what failed is tried again. *)
Theorem rerun_retries_only_failures (cfg : config) (env1 env2 : environment)
    (tok : string) (df : list Row) (files files2 : gmap string bytes) :
  let st1 := run_loop cfg env1 tok df files in
  (∀ q, is_Some (fs st1 !! q) → is_Some (files2 !! q)) →
  let st2 := run_loop cfg env2 tok df files2 in
  downloaded st1 + skipped st1 ≤ skipped st2
  ∧ length (requests_of (trace st2)) ≤ failures (trace st1)
  ∧ downloaded st2 + failures (trace st2) ≤ failures (trace st1).
Proof.
  intros st1 Hkept st2.
  destruct (fetch_loop_steps cfg env1 tok (length df) (init_state files) df)
    as [_ Hsteps1].
  destruct (fetch_loop_steps cfg env2 tok (length df) (init_state files2) df)
    as [_ Hsteps2].
  fold (run_loop cfg env1 tok df files) in Hsteps1.
  fold (run_loop cfg env2 tok df files2) in Hsteps2.
  fold st1 in Hsteps1. fold st2 in Hsteps2.
  pose proof (steps_rerun _ _ _ _ _ _ _ _ _ Hsteps1 _ _ Hsteps2 Hkept) as Hre.
  pose proof (steps_counters _ _ _ _ _ _ _ Hsteps1) as (Hsum1 & _).
  pose proof (steps_counters _ _ _ _ _ _ _ Hsteps2) as (Hsum2 & _).
  destruct (steps_requests _ _ _ _ _ _ _ Hsteps2) as (reqs & Hreqs & _ & Hlen & _).
  simpl in Hre, Hsum1, Hsum2, Hreqs, Hlen. rewrite Hreqs.
  change (failures []) with 0 in Hsum1, Hsum2.
  split_and!; lia.
Qed.

(** ** One file per identifier *)

Lemma append_length (a b : string) :
  String.length (a +:+ b) = String.length a + String.length b.
Proof.
  induction a as [|ch a IH]; [done|]. rewrite append_cons. simpl. by rewrite IH.
Qed.

Lemma append_inj_r (a b c : string) : a +:+ c = b +:+ c → a = b.
Proof.
  revert b. induction a as [|ch a IH]; intros [|ch' b] Heq.
  - done.
  - apply (f_equal String.length) in Heq.
    rewrite !append_length in Heq. simpl in Heq. lia.
  - apply (f_equal String.length) in Heq.
    rewrite !append_length in Heq. simpl in Heq. lia.
  - rewrite !append_cons in Heq. injection Heq as -> Heq. f_equal. by apply IH.
Qed.

Lemma no_slash_append (a b : string) :
  no_slash a = true → no_slash b = true → no_slash (a +:+ b) = true.
Proof.
  intros Ha Hb. induction a as [|ch a IH]; [done|].
  rewrite append_cons. simpl in *. destruct (decide (ch = slash)); [done | auto].
Qed.

Lemma split_slash_plain (s : string) : no_slash s = true → split_slash s = [s].
Proof.
  induction s as [|ch s IH]; [done|]. simpl.
  destruct (decide (ch = slash)); [done|]. intros Hs. by rewrite IH.
Qed.

Lemma splitroot_plain (s : string) : no_slash s = true → splitroot s = ("", s).
Proof.
  intros Hs. unfold splitroot.
  assert (lstrip_slash s = s) as ->.
  { destruct s as [|ch s]; [done|]. simpl in *.
    by destruct (decide (ch = slash)). }
  by rewrite Nat.sub_diag.
Qed.

(** A file name without a slash is appended to the directory as it is. *)
Lemma path_join_plain (text : string) :
  no_slash text = true →
  path_join IMAGE_DIR (text +:+ ".jpg") = "images/train/" +:+ text +:+ ".jpg".
Proof.
  intros Htext.
  assert (no_slash (text +:+ ".jpg") = true) as Hname
    by (by apply no_slash_append).
  assert (text +:+ ".jpg" ≠ "" ∧ text +:+ ".jpg" ≠ ".") as Hkeep.
  { split; intros Heq; apply (f_equal String.length) in Heq;
      rewrite append_length in Heq; simpl in Heq; lia. }
  assert (parse_path (text +:+ ".jpg")
          = {| path_root := ""; path_parts := [text +:+ ".jpg"] |}) as Hparse.
  { unfold parse_path. rewrite splitroot_plain by done. cbn [fst snd].
    rewrite split_slash_plain by done. by rewrite filter_cons_True. }
  unfold path_join, truediv. rewrite Hparse. cbn [path_root path_parts].
  rewrite decide_True by done.
  change (parse_path IMAGE_DIR)
    with {| path_root := ""; path_parts := ["images"; "train"] |}.
  unfold path_str. cbn [path_root path_parts app String.concat].
  by rewrite decide_False.
Qed.

Lemma pretty_N_go_no_slash (x : N) (s : string) :
  no_slash s = true → no_slash (pretty_N_go x s) = true.
Proof.
  revert s. induction (N.lt_wf_0 x) as [x _ IH]; intros s Hs.
  destruct (decide (x = 0%N)) as [->|Hpos]; [by rewrite pretty_N_go_0|].
  rewrite pretty_N_go_step by lia. apply IH; [apply N.div_lt; lia|].
  simpl. rewrite Hs. unfold pretty_N_char. by repeat case_match.
Qed.

Lemma pretty_Z_no_slash (z : Z) : no_slash (pretty z) = true.
Proof.
  assert (∀ x : positive, no_slash (pretty x) = true) as Hpos.
  { intros x. unfold pretty, pretty_positive, pretty, pretty_N.
    rewrite decide_False by done. by apply pretty_N_go_no_slash. }
  destruct z as [|x|x]; [done | apply Hpos |].
  unfold pretty, pretty_Z. by apply (no_slash_append "-").
Qed.

(** X. An identifier whose text has no slash is stored at
    [images/train/<text>.jpg].  Two such identifiers share a file exactly
    when they print the same text, and distinct integer identifiers never
    share one.  With a slash in the text the path is normalised, so that for
    instance the string [./1] and the integer 1 name the same file. *)
Theorem out_path_of_inj :
  (∀ pid, no_slash (py_str pid) = true →
          out_path_of pid = "images/train/" +:+ py_str pid +:+ ".jpg")
  ∧ (∀ pid1 pid2,
       no_slash (py_str pid1) = true →
       no_slash (py_str pid2) = true →
       (out_path_of pid1 = out_path_of pid2 ↔ py_str pid1 = py_str pid2))
  ∧ (∀ a b : Z, out_path_of (PyInt a) = out_path_of (PyInt b) ↔ a = b)
  ∧ out_path_of (PyStr "./1") = out_path_of (PyInt 1)
  ∧ out_path_of (PyStr "/tmp/1") = "/tmp/1.jpg".
Proof.
  assert (∀ pid, no_slash (py_str pid) = true →
            out_path_of pid = "images/train/" +:+ py_str pid +:+ ".jpg")
    as Hplain by (intros pid Hpid; by apply path_join_plain).
  assert (∀ pid1 pid2,
            no_slash (py_str pid1) = true →
            no_slash (py_str pid2) = true →
            (out_path_of pid1 = out_path_of pid2 ↔ py_str pid1 = py_str pid2))
    as Hinj.
  { intros pid1 pid2 H1 H2. rewrite !Hplain by done. split.
    - intros Heq. apply String.app_inj in Heq. by apply append_inj_r in Heq.
    - by intros ->. }
  split_and!; [done | done | | vm_compute; reflexivity..].
  intros a b. rewrite Hinj by apply pretty_Z_no_slash.
  simpl. split; [apply pretty_Z_inj | by intros ->].
Qed.

(** ** Sampling the whole table *)

Lemma omap_lookup_seq (before rows : list Row) :
  omap (λ i, (before ++ rows) !! i) (seq (length before) (length rows)) = rows.
Proof.
  revert before. induction rows as [|row rows IH]; intros before; [done|].
  simpl. rewrite list_lookup_middle by done. f_equal.
  specialize (IH (before ++ [row])).
  rewrite length_app, Nat.add_1_r, <- app_assoc in IH. exact IH.
Qed.

(** X. When [SAMPLE_SIZE] is at least the number of rows, sample mode loses
    nothing: under numpy's contract for draws without replacement the loader
    returns all rows of the table, each exactly as often as it occurs there,
    in the order the generator chose. *)
Theorem sample_of_whole_table (cfg : config) (env : environment) (rs : Z → rng)
    (st : state) (table : list Row) :
  USE_SAMPLE cfg = true →
  excel env DATA_PATH = Some table →
  length table ≤ SAMPLE_SIZE cfg →
  choice_contract (rs 42%Z) →
  ∃ sample, (load_dataset cfg env rs st).1 = Ok sample ∧ sample ≡ₚ table.
Proof.
  intros Hmode Hx Hsize Hcontract.
  exists (omap (λ i, table !! i) (choice (rs 42%Z) (length table) (length table))).
  split.
  - unfold load_dataset, read_excel, mbind, M_bind. rewrite Hx, Hmode.
    unfold DataFrame_sample. by rewrite Nat.min_r.
  - destruct (Hcontract (length table) (length table)) as (Hlen & Hnodup & Hbound);
      [done|].
    rewrite <- (omap_lookup_seq [] table) at 3. simpl.
    apply omap_Permutation. apply submseteq_length_Permutation.
    + apply NoDup_submseteq; [done|]. intros i Hi. apply elem_of_seq.
      rewrite Forall_forall in Hbound. specialize (Hbound i Hi). lia.
    + by rewrite length_seq, Hlen.
Qed.

(** ** The script from top to bottom *)

Lemma py_not_token (tok : string) : tok ≠ "" → py_not (Some tok) = false.
Proof. intros Hne. simpl. by apply bool_decide_eq_false_2. Qed.

Lemma preamble_state (n : nat) (st : state) :
  emit (EvPrint ("Total images to download: " +:+ pretty n))
    (emit (EvPrint "Starting image download...")
       (emit (EvReadExcel DATA_PATH) (emit (EvMkdir IMAGE_DIR) st)))
  = after_preamble n st.
Proof.
  unfold after_preamble, preamble_events, emit. simpl.
  by rewrite <- !app_assoc.
Qed.

Lemma load_dataset_ok (cfg : config) (env : environment) (rs : Z → rng)
    (st : state) (table : list Row) :
  excel env DATA_PATH = Some table →
  load_dataset cfg env rs st
  = (Ok (dataset cfg env rs table), emit (EvReadExcel DATA_PATH) st).
Proof.
  intros Hx. unfold load_dataset, dataset, read_excel, mbind, M_bind.
  rewrite Hx. by destruct (USE_SAMPLE cfg).
Qed.

Lemma summary_ok (n : nat) (st : state) :
  summary n st
  = (Ok tt, {| fs := fs st;
               trace := trace st ++ summary_events n (downloaded st) (skipped st);
               downloaded := downloaded st; skipped := skipped st |}).
Proof.
  unfold summary, summary_events, gets, print, modify, mbind, M_bind, emit.
  simpl. by rewrite <- !app_assoc.
Qed.

(** The script past its start-up: token found, directory made, table read. *)
Lemma script_run (cfg : config) (env : environment) (rs : Z → rng)
    (st : state) (tok : string) (table : list Row) :
  getenv env "MAPBOX_TOKEN" = Some tok →
  tok ≠ "" →
  mkdir_error env IMAGE_DIR = None →
  excel env DATA_PATH = Some table →
  let df := dataset cfg env rs table in
  let n := length df in
  let st1 := exec (fetch_loop cfg env tok n df) (after_preamble n st) in
  script cfg env rs st
  = (Ok tt, {| fs := fs st1;
               trace := trace st1 ++ summary_events n (downloaded st1) (skipped st1);
               downloaded := downloaded st1; skipped := skipped st1 |}).
Proof.
  intros Htok Hne Hdir Hx df n st1.
  destruct (fetch_loop_steps cfg env tok n (after_preamble n st) df) as [Hloop _].
  fold st1 in Hloop.
  unfold script. rewrite Htok, (py_not_token tok Hne).
  unfold mkdir, print, modify, mbind, M_bind. rewrite Hdir.
  rewrite (load_dataset_ok cfg env rs _ table Hx).
  fold df. fold n. rewrite preamble_state.
  change (default "" (Some tok)) with tok. rewrite Hloop. apply summary_ok.
Qed.

(** X. Whenever the script runs to its end without raising, it found a
    non-empty token, made the directory and read a table, and what it did is
    exactly this: the [mkdir], the read, the two banner lines with the number
    of rows, the loop over the data set with that token, and the five summary
    lines showing the loop's final counters.  Those counters and the failure
    lines account for every row, and every file present at the start is
    unchanged. *)
Theorem completed_script_output (cfg : config) (env : environment)
    (rs : Z → rng) (st st' : state) :
  script cfg env rs st = (Ok tt, st') →
  ∃ tok table,
    getenv env "MAPBOX_TOKEN" = Some tok
    ∧ tok ≠ ""
    ∧ mkdir_error env IMAGE_DIR = None
    ∧ excel env DATA_PATH = Some table
    ∧ let df := dataset cfg env rs table in
      let n := length df in
      let st0 := after_preamble n st in
      let st1 := exec (fetch_loop cfg env tok n df) st0 in
      st' = {| fs := fs st1;
               trace := trace st1
                        ++ summary_events n (downloaded st1) (skipped st1);
               downloaded := downloaded st1; skipped := skipped st1 |}
      ∧ downloaded st1 + skipped st1 + failures (new_events st0 st1) = n
      ∧ (∀ q c, fs st !! q = Some c → fs st1 !! q = Some c).
Proof.
  intros Hrun.
  destruct (getenv env "MAPBOX_TOKEN") as [tok|] eqn:Htok;
    [|unfold script in Hrun; rewrite Htok in Hrun; discriminate].
  destruct (decide (tok = "")) as [->|Hne];
    [unfold script in Hrun; rewrite Htok in Hrun; discriminate|].
  destruct (mkdir_error env IMAGE_DIR) as [e|] eqn:Hdir.
  { unfold script in Hrun. rewrite Htok, (py_not_token tok Hne) in Hrun.
    unfold mkdir, mbind, M_bind in Hrun. rewrite Hdir in Hrun. discriminate. }
  destruct (excel env DATA_PATH) as [table|] eqn:Hx.
  2:{ unfold script in Hrun. rewrite Htok, (py_not_token tok Hne) in Hrun.
      unfold mkdir, load_dataset, read_excel, mbind, M_bind in Hrun.
      rewrite Hdir, Hx in Hrun. discriminate. }
  exists tok, table. split_and!; [done..|].
  intros df n st0 st1.
  pose proof (script_run cfg env rs st tok table Htok Hne Hdir Hx) as Hok.
  simpl in Hok. fold df in Hok. fold n in Hok. fold st0 in Hok. fold st1 in Hok.
  rewrite Hok in Hrun. injection Hrun as <-.
  destruct (fetch_loop_steps cfg env tok n st0 df) as [_ Hsteps].
  fold st1 in Hsteps.
  split_and!; [done | apply (fetch_loop_tally cfg env tok n st0 df) |].
  intros q c Hq. apply steps_fs_mono in Hsteps.
  by apply (lookup_weaken (fs st)).
Qed.

(** X. With a token, and the directory made, a table that cannot be read
    stops the script: it raises the very exception the read raised, whatever
    its class and message.  By then it has made the directory and tried the
    read, and nothing else: nothing is printed, no request is sent, no file
    is touched. *)
Theorem script_without_table (cfg : config) (env : environment) (rs : Z → rng)
    (st : state) (tok : string) :
  getenv env "MAPBOX_TOKEN" = Some tok →
  tok ≠ "" →
  mkdir_error env IMAGE_DIR = None →
  excel env DATA_PATH = None →
  script cfg env rs st
  = (Raise (excel_error env DATA_PATH),
     {| fs := fs st;
        trace := trace st ++ [EvMkdir IMAGE_DIR; EvReadExcel DATA_PATH];
        downloaded := downloaded st; skipped := skipped st |}).
Proof.
  intros Htok Hne Hdir Hx. unfold script. rewrite Htok, (py_not_token tok Hne).
  unfold mkdir, load_dataset, read_excel, modify, mbind, M_bind.
  rewrite Hdir, Hx. unfold emit. simpl. by rewrite <- !app_assoc.
Qed.

(** ** What a progress line shows *)

Section ProgressLines.

Variable cfg : config.
Variable env : environment.
Variable MAPBOX_TOKEN : string.
Variable total_images : nat.

Lemma filter_progress_events (st : state) :
  List.filter is_progress (progress_events cfg total_images st)
  = progress_events cfg total_images st.
Proof.
  unfold progress_events. destruct (progress_due cfg (downloaded st)); [|done].
  cbn [List.filter is_progress]. by rewrite progress_text_is_progress.
Qed.

Lemma progress_events_ok (st : state) :
  Forall (progress_line_ok cfg total_images (downloaded st))
    (progress_events cfg total_images st).
Proof.
  unfold progress_events.
  destruct (progress_due cfg (downloaded st)) eqn:Hdue; constructor; [|done].
  by exists (downloaded st).
Qed.

Lemma progress_line_ok_mono (b1 b2 : nat) (ev : event) :
  b1 ≤ b2 →
  progress_line_ok cfg total_images b1 ev →
  progress_line_ok cfg total_images b2 ev.
Proof. intros Hle (d & ? & ? & ?). exists d. split_and!; [done..|lia]. Qed.

(** The progress lines of one iteration are those of its closing check. *)
Lemma step_progress_lines (st st' : state) (row : Row) :
  row_step cfg env MAPBOX_TOKEN total_images st row st' →
  ∃ evs, trace st' = trace st ++ evs
         ∧ Forall (progress_line_ok cfg total_images (downloaded st'))
             (List.filter is_progress evs).
Proof.
  intros H.
  inversion H as [Hsome|data Hnone Hget Hdisk|status data Hnone Hget Hne
                  |e Hnone Hget|data e Hnone Hget Hdisk
                  |data k e Hnone Hget Hdisk]; subst st'.
  - exists []. split; [by rewrite app_nil_r | constructor].
  - eexists. split.
    + rewrite progress_trace. simpl. rewrite <- !app_assoc. reflexivity.
    + cbn [app List.filter is_progress]. rewrite filter_progress_events.
      rewrite progress_downloaded. apply progress_events_ok.
  - eexists. split.
    + rewrite progress_trace. simpl. rewrite <- !app_assoc. reflexivity.
    + cbn [app List.filter is_progress]. rewrite failed_text_not_progress.
      rewrite filter_progress_events, progress_downloaded.
      apply progress_events_ok.
  - eexists. split.
    + rewrite progress_trace. simpl. rewrite <- !app_assoc. reflexivity.
    + cbn [app List.filter is_progress]. rewrite error_text_not_progress.
      rewrite filter_progress_events, progress_downloaded.
      apply progress_events_ok.
  - eexists. split.
    + rewrite progress_trace. simpl. rewrite <- !app_assoc. reflexivity.
    + cbn [app List.filter is_progress]. rewrite error_text_not_progress.
      rewrite filter_progress_events, progress_downloaded.
      apply progress_events_ok.
  - eexists. split.
    + rewrite progress_trace. simpl. rewrite <- !app_assoc. reflexivity.
    + cbn [app List.filter is_progress]. rewrite error_text_not_progress.
      rewrite filter_progress_events, progress_downloaded.
      apply progress_events_ok.
Qed.

Lemma steps_progress_lines (st st' : state) (df : list Row) :
  rows_steps cfg env MAPBOX_TOKEN total_images st df st' →
  ∃ evs, trace st' = trace st ++ evs
         ∧ Forall (progress_line_ok cfg total_images (downloaded st'))
             (List.filter is_progress evs).
Proof.
  induction 1 as [st|st row st1 rest st2 Hstep Hrest IH].
  - exists []. split; [by rewrite app_nil_r | constructor].
  - destruct (step_progress_lines _ _ _ Hstep) as (evs1 & Ht1 & Hok1).
    destruct IH as (evs2 & Ht2 & Hok2).
    pose proof (steps_counters _ _ _ _ _ _ _ Hrest) as (_ & Hmono & _).
    exists (evs1 ++ evs2). split; [by rewrite Ht2, Ht1, app_assoc|].
    rewrite List.filter_app. apply Forall_app. split; [|done].
    eapply Forall_impl; [exact Hok1|].
    intros ev. by apply progress_line_ok_mono.
Qed.

(** X. Every progress line of a run reads [Downloaded d/total images] for
    the total the loop was given and a count [d] that is a multiple of the
    interval (zero included) and does not exceed the final downloaded
    counter. *)
Theorem progress_lines_show_multiples (st : state) (df : list Row) :
  let st' := exec (fetch_loop cfg env MAPBOX_TOKEN total_images df) st in
  Forall (λ ev, ∃ d, ev = EvPrint (progress_text d total_images)
                     ∧ d mod Pos.to_nat (PROGRESS_INTERVAL cfg) = 0
                     ∧ d ≤ downloaded st')
    (List.filter is_progress (new_events st st')).
Proof.
  intros st'.
  destruct (fetch_loop_steps cfg env MAPBOX_TOKEN total_images st df)
    as [_ Hsteps]. fold st' in Hsteps.
  destruct (steps_progress_lines _ _ _ Hsteps) as (evs & Ht & Hok).
  rewrite (new_events_app st st' evs) by done.
  eapply Forall_impl; [exact Hok|].
  intros ev (d & -> & Hdue & Hle). exists d. split_and!; [done | | done].
  unfold progress_due in Hdue. by apply Nat.eqb_eq in Hdue.
Qed.

End ProgressLines.

(** ** The further theorems at work on the sample worlds *)

Lemma reliable_run_witness :
  (∀ t url, ∃ data, http_get online t url = Response 200 data)
  ∧ (∀ t p, disk online t p = WriteOk)
  ∧ downloaded (exec (fetch_loop default_config online "tok" 3 three_houses)
                  (init_state fetched_once))
    + skipped (exec (fetch_loop default_config online "tok" 3 three_houses)
                 (init_state fetched_once))
    = 3.
Proof.
  assert (∀ t url, ∃ data, http_get online t url = Response 200 data) as Hnet
    by (intros; exists jpeg; reflexivity).
  assert (∀ t p, disk online t p = WriteOk) as Hdisk by reflexivity.
  split_and!; [exact Hnet | exact Hdisk |].
  exact (proj1 (proj2 (reliable_run default_config online "tok" 3
                         (init_state fetched_once) three_houses Hnet Hdisk))).
Defined.

Lemma open_error_is_isolated_witness :
  fs (init_state ∅) !! out_path (house 1) = None
  ∧ http_get read_only 0 (url_of "tok" (house 1)) = Response 200 jpeg
  ∧ disk read_only 1 (out_path (house 1))
    = OpenRaises "[Errno 13] Permission denied"
  ∧ fs (exec (process_row default_config read_only "tok" 3 (house 1))
          (init_state ∅)) = ∅.
Proof.
  assert (fs (init_state ∅) !! out_path (house 1) = None) as Habsent
    by (vm_compute; reflexivity).
  destruct (open_error_is_isolated default_config read_only "tok" 3
              (init_state ∅) (house 1) [] jpeg "[Errno 13] Permission denied"
              Habsent eq_refl eq_refl) as (_ & _ & Hfs & _).
  split_and!; [exact Habsent | reflexivity | reflexivity | exact Hfs].
Defined.

Lemma write_error_leaves_partial_file_witness :
  fs (init_state ∅) !! out_path (house 1) = None
  ∧ http_get disk_full 0 (url_of "tok" (house 1)) = Response 200 jpeg
  ∧ disk disk_full 1 (out_path (house 1))
    = WriteRaises 2 "[Errno 28] No space left on device"
  ∧ fs (exec (process_row default_config disk_full "tok" 3 (house 1))
          (init_state ∅))
    = <[out_path (house 1) := [Byte.xff; Byte.xd8]]> ∅
  ∧ downloaded (exec (process_row default_config disk_full "tok" 3 (house 1))
                  (init_state ∅)) = 0.
Proof.
  assert (fs (init_state ∅) !! out_path (house 1) = None) as Habsent
    by (vm_compute; reflexivity).
  destruct (write_error_leaves_partial_file default_config disk_full "tok" 3
              (init_state ∅) (house 1) jpeg 2
              "[Errno 28] No space left on device"
              Habsent eq_refl eq_refl) as (Hfs & Hd & _).
  split_and!; [exact Habsent | reflexivity | reflexivity | exact Hfs | exact Hd].
Defined.

Lemma rerun_retries_only_failures_witness :
  (∀ q, is_Some (fs cadence_run !! q) → is_Some (fs cadence_run !! q))
  ∧ downloaded cadence_run + skipped cadence_run
    ≤ skipped (run_loop every_second online "tok" [house 1; house 2; house 3]
                 (fs cadence_run))
  ∧ length (requests_of
              (trace (run_loop every_second online "tok"
                        [house 1; house 2; house 3] (fs cadence_run))))
    ≤ failures (trace cadence_run).
Proof.
  split; [exact (λ q Hq, Hq)|].
  destruct (rerun_retries_only_failures every_second two_then_refused online
              "tok" [house 1; house 2; house 3] ∅ (fs cadence_run)
              (λ q Hq, Hq)) as (Hskip & Hreq & _).
  split; [exact Hskip | exact Hreq].
Defined.

Lemma sample_of_whole_table_witness :
  USE_SAMPLE sampling_all = true
  ∧ excel draw_b DATA_PATH = Some three_houses
  ∧ length three_houses ≤ SAMPLE_SIZE sampling_all
  ∧ choice_contract first_rows
  ∧ ∃ sample,
      (load_dataset sampling_all draw_b (λ _, first_rows) (init_state ∅)).1
      = Ok sample
      ∧ sample ≡ₚ three_houses.
Proof.
  assert (length three_houses ≤ SAMPLE_SIZE sampling_all) as Hsize
    by (vm_compute; lia).
  split_and!; [reflexivity | reflexivity | exact Hsize
              | exact first_rows_contract |].
  exact (sample_of_whole_table sampling_all draw_b (λ _, first_rows)
           (init_state ∅) three_houses eq_refl eq_refl Hsize
           first_rows_contract).
Defined.

Lemma completed_script_output_witness :
  script default_config
    (configured (λ _ _, Response 200 jpeg) (λ _ _, WriteOk) (Some three_houses))
    (λ _, first_rows) (init_state ∅)
  = (Ok tt,
     exec (script default_config
             (configured (λ _ _, Response 200 jpeg) (λ _ _, WriteOk)
                (Some three_houses))
             (λ _, first_rows)) (init_state ∅))
  ∧ ∃ tok table,
      getenv (configured (λ _ _, Response 200 jpeg) (λ _ _, WriteOk)
                (Some three_houses)) "MAPBOX_TOKEN" = Some tok
      ∧ tok ≠ ""
      ∧ excel (configured (λ _ _, Response 200 jpeg) (λ _ _, WriteOk)
                 (Some three_houses)) DATA_PATH = Some table.
Proof.
  assert (script default_config
            (configured (λ _ _, Response 200 jpeg) (λ _ _, WriteOk)
               (Some three_houses))
            (λ _, first_rows) (init_state ∅)
          = (Ok tt,
             exec (script default_config
                     (configured (λ _ _, Response 200 jpeg) (λ _ _, WriteOk)
                        (Some three_houses))
                     (λ _, first_rows)) (init_state ∅))) as Hrun
    by (vm_compute; reflexivity).
  split; [exact Hrun|].
  destruct (completed_script_output _ _ _ _ _ Hrun)
    as (tok & table & Htok & Hne & _ & Hx & _).
  exists tok, table. split_and!; [exact Htok | exact Hne | exact Hx].
Defined.

Lemma script_without_table_witness :
  getenv (configured (λ _ _, Response 200 jpeg) (λ _ _, WriteOk) None)
    "MAPBOX_TOKEN" = Some "pk.test"
  ∧ "pk.test" ≠ ""
  ∧ script default_config
      (configured (λ _ _, Response 200 jpeg) (λ _ _, WriteOk) None)
      (λ _, first_rows) (init_state ∅)
    = (Raise (PyException "ValueError"
                "Excel file format cannot be determined, you must specify an engine manually."),
       {| fs := ∅; trace := [EvMkdir IMAGE_DIR; EvReadExcel DATA_PATH];
          downloaded := 0; skipped := 0 |}).
Proof.
  assert (getenv (configured (λ _ _, Response 200 jpeg) (λ _ _, WriteOk) None)
            "MAPBOX_TOKEN" = Some "pk.test")
    as Htok by (vm_compute; reflexivity).
  assert ("pk.test" ≠ "") as Hne by discriminate.
  split_and!; [exact Htok | exact Hne |].
  exact (script_without_table default_config
           (configured (λ _ _, Response 200 jpeg) (λ _ _, WriteOk) None)
           (λ _, first_rows) (init_state ∅) "pk.test" Htok Hne eq_refl eq_refl).
Defined.

Lemma out_path_of_inj_witness :
  no_slash (py_str (PyFloat "7129300520.0")) = true
  ∧ no_slash (py_str (PyInt 7129300520)) = true
  ∧ (out_path_of (PyFloat "7129300520.0") = out_path_of (PyInt 7129300520)
     ↔ py_str (PyFloat "7129300520.0") = py_str (PyInt 7129300520)).
Proof.
  split_and!; [reflexivity | reflexivity |].
  exact (proj1 (proj2 out_path_of_inj) (PyFloat "7129300520.0")
           (PyInt 7129300520) eq_refl eq_refl).
Defined.
